(** * Temperature analytics pipeline (src/app.py): a shallow embedding

    The program is a pandas pipeline: a rolling mean over the temperature
    column, per (city, season) mean / sample standard deviation, a
    two-sigma anomaly filter, and the classification of one live reading.

    Numbers.  A pandas float64 cell is modelled as [option R]: [None] is
    NaN and [Some x] is the real number the cell stands for.  Arithmetic is
    therefore exact; rounding, overflow and infinities are outside the model.
    What the model does keep is the NaN discipline of pandas and numpy:
    NaN-skipping aggregates, NaN-propagating arithmetic and comparisons
    with NaN that are false.

    Consequences for what is stated below.  The mean and the standard
    deviation stand for the mathematical value that the float64 kernels of
    pandas approximate, so nothing is stated about the last bits of their
    results, nor about which side of a threshold a value falls on when it
    lies within rounding distance of it.  The general statements about the
    cell of a full window of the rolling mean carry the hypothesis
    [rolling_in_range], under which the running sum of pandas cannot
    overflow. *)

From Stdlib Require Import Reals Lra Lia List String Ascii ZArith Bool.
From Stdlib Require Import Sorting.Sorted Sorting.Permutation.
Import ListNotations.

Set Implicit Arguments.

(** ** Python exceptions and results *)

Inductive exn : Type :=
| ValueError
| IndexError
| KeyError
| TypeError.

Inductive result (A : Type) : Type :=
| Ok (a : A)
| Raise (e : exn).

Arguments Ok {A} a.
Arguments Raise {A} e.

Definition bind {A B : Type} (m : result A) (k : A -> result B) : result B :=
  match m with
  | Ok a => k a
  | Raise e => Raise e
  end.

Notation "x <- m ;; k" := (bind m (fun x => k))
  (at level 61, m at next level, right associativity).

(** ** float64 cells with NaN *)

Module Float64.

Definition float : Type := option R.

Definition nan : float := None.

(** An operation on two cells: NaN when either is NaN, otherwise the exact
    result, where float64 would round it. *)
Definition lift2 (f : R -> R -> R) (a b : float) : float :=
  match a, b with
  | Some x, Some y => Some (f x y)
  | _, _ => None
  end.

Definition add : float -> float -> float := lift2 Rplus.
Definition sub : float -> float -> float := lift2 Rminus.
Definition mul : float -> float -> float := lift2 Rmult.

Definition abs (a : float) : float := option_map Rabs a.

(** Comparisons: any comparison with NaN is [false]; two numbers are
    compared as the reals they are. *)
Definition ltb (a b : float) : bool :=
  match a, b with
  | Some x, Some y => if Rlt_dec x y then true else false
  | _, _ => false
  end.

Definition gtb (a b : float) : bool := ltb b a.

Definition leb (a b : float) : bool :=
  match a, b with
  | Some x, Some y => if Rle_dec x y then true else false
  | _, _ => false
  end.

Definition of_Z (z : Z) : float := Some (IZR z).

End Float64.

Import Float64.

(** ** Rows and data frames *)

Record Row : Type := mkRow
  { timestamp : Z;
    city : string;
    season : string;
    temperature : float }.

Definition DataFrame : Type := list Row.

Definition set_temperature (r : Row) (t : float) : Row :=
  {| timestamp := timestamp r;
     city := city r;
     season := season r;
     temperature := t |}.

(** ** The pandas operations the program calls *)

Module Pandas.

(** Present (non-NaN) values of a column, in order. *)
Fixpoint dropna (xs : list float) : list R :=
  match xs with
  | [] => []
  | Some x :: t => x :: dropna t
  | None :: t => dropna t
  end.

Definition Rsum (l : list R) : R := fold_right Rplus 0%R l.

Definition arith_mean (v : list R) : R := (Rsum v / INR (List.length v))%R.

(** The mean of a column, skipna: NaN when no value is present, otherwise
    the exact mean of the present values.  It stands both for
    [Series.mean()] (line 26) and for the ['mean'] of [groupby.agg]
    (line 20): pandas computes the two with different kernels, whose
    float64 results both approximate this value and need not agree to the
    last bit. *)
Definition series_mean (xs : list float) : float :=
  let v := dropna xs in
  match v with
  | [] => nan
  | _ :: _ => Some (arith_mean v)
  end.

(** The sample standard deviation of a column, skipna, ddof = 1: NaN when
    fewer than two values are present, otherwise the exact value.  It
    stands both for [Series.std()] (line 27) and for the ['std'] of
    [groupby.agg] (line 20), with the same proviso as for the mean. *)
Definition series_std (xs : list float) : float :=
  let v := dropna xs in
  if (List.length v <=? 1)%nat then nan
  else
    let m := arith_mean v in
    Some (sqrt (Rsum (map (fun x => ((x - m) * (x - m))%R) v)
                / (INR (List.length v) - 1))%R).

(** The rows [max 0 (i - W + 1) .. i] of a column. *)
Definition window_at (W i : nat) (xs : list float) : list float :=
  skipn (S i - W) (firstn (S i) xs).

(** The value the rolling mean puts at position [i]: the exact mean of the
    window.  pandas keeps one running sum over the column, adding the
    entering value and subtracting the leaving one; once that sum has
    overflowed, the cells that follow are no longer the mean of their
    window.  The definition is the program on columns whose running sum
    stays in range ([rolling_in_range] below). *)
Definition rolling_at (W i : nat) (xs : list float) : float :=
  let obs := dropna (window_at W i xs) in
  if (W <=? List.length obs)%nat && (0 <? List.length obs)%nat
  then Some (arith_mean obs)
  else nan.

(** [Series.rolling(window=W).mean()]: min_periods defaults to W, so a
    position gets a number only when its window holds W present values. *)
Definition rolling_mean (W : nat) (xs : list float) : list float :=
  map (fun i => rolling_at W i xs) (seq 0 (List.length xs)).

(** Group keys: the pair (city, season), ordered as Python orders tuples
    of strings. *)
Definition key : Type := (string * string)%type.

Definition row_key (r : Row) : key := (city r, season r).

Definition key_compare (a b : key) : comparison :=
  match String.compare (fst a) (fst b) with
  | Eq => String.compare (snd a) (snd b)
  | c => c
  end.

Definition key_eqb (a b : key) : bool :=
  String.eqb (fst a) (fst b) && String.eqb (snd a) (snd b).

Definition key_lt (a b : key) : Prop := key_compare a b = Lt.

Definition key_le (a b : key) : Prop := key_compare a b <> Gt.

(** Insertion into the sorted list of distinct keys. *)
Fixpoint insert_key (k : key) (l : list key) : list key :=
  match l with
  | [] => [k]
  | h :: t =>
      match key_compare k h with
      | Lt => k :: l
      | Eq => l
      | Gt => h :: insert_key k t
      end
  end.

(** The distinct keys of a frame, ascending ([groupby] sorts by default). *)
Definition group_keys (data : DataFrame) : list key :=
  fold_right (fun r acc => insert_key (row_key r) acc) [] data.

Definition in_group (k : key) (r : Row) : bool := key_eqb (row_key r) k.

(** [data.groupby(['city', 'season'])]: the groups in ascending key
    order, each holding its rows in the order of the frame. *)
Definition groupby (data : DataFrame) : list (key * DataFrame) :=
  map (fun k => (k, filter (in_group k) data)) (group_keys data).

(** [pd.concat]: refuses an empty list of frames. *)
Definition concat_frames (frames : list DataFrame) : result DataFrame :=
  match frames with
  | [] => Raise ValueError
  | _ :: _ => Ok (List.concat frames)
  end.

(** [s.values[0]] *)
Definition values0 {A : Type} (l : list A) : result A :=
  match l with
  | [] => Raise IndexError
  | a :: _ => Ok a
  end.

(** [Series.max()] of a timestamp column; [None] is NaT. *)
Definition series_max (l : list Z) : option Z :=
  match l with
  | [] => None
  | a :: t => Some (fold_right Z.max a t)
  end.

(** [Series.unique()]: distinct values in order of first appearance. *)
Fixpoint unique (l : list string) : list string :=
  match l with
  | [] => []
  | a :: t => a :: filter (fun b => negb (String.eqb b a)) (unique t)
  end.

End Pandas.

Import Pandas.

(** ** The program *)

Record SeasonalStat : Type := mkStat
  { stat_city : string;
    stat_season : string;
    stat_mean : float;
    stat_std : float }.

Definition temperatures (data : DataFrame) : list float := map temperature data.

(** [smooth_temperature]: the rolling mean runs over the whole temperature
    column, in row order, and overwrites it. *)
Definition smooth_temperature (data : DataFrame) (window : nat) : DataFrame :=
  map (fun p => set_temperature (fst p) (snd p))
      (combine data (rolling_mean window (temperatures data))).

Definition default_window : nat := 30.

(** [calculate_seasonal_statistics] *)
Definition calculate_seasonal_statistics (data : DataFrame) : list SeasonalStat :=
  map (fun g =>
         {| stat_city := fst (fst g);
            stat_season := snd (fst g);
            stat_mean := series_mean (temperatures (snd g));
            stat_std := series_std (temperatures (snd g)) |})
      (groupby data).

(** The mask built in the loop body of [find_anomalies]. *)
Definition anomaly_condition (mean std : float) (r : Row) : bool :=
  ltb (temperature r) (sub mean (mul (of_Z 2) std))
  || gtb (temperature r) (add mean (mul (of_Z 2) std)).

(** One iteration of the loop of [find_anomalies]. *)
Definition group_anomalies (group : DataFrame) : DataFrame :=
  let mean := series_mean (temperatures group) in
  let std := series_std (temperatures group) in
  filter (anomaly_condition mean std) group.

(** [find_anomalies] *)
Definition find_anomalies (data : DataFrame) : result DataFrame :=
  let anomalies := map (fun g => group_anomalies (snd g)) (groupby data) in
  concat_frames anomalies.

(** [analyze_temperature_data], after [load_data] has produced the frame. *)
Definition analyze_temperature_data (loaded : DataFrame)
  : result (DataFrame * list SeasonalStat * DataFrame) :=
  let data := smooth_temperature loaded default_window in
  let seasonal_stats := calculate_seasonal_statistics data in
  anomalies <- find_anomalies data ;;
  Ok (data, seasonal_stats, anomalies).

(** ** The live reading *)

(** The value found under ['main']['temp'] of the body: the key may be
    absent, or hold JSON null (Python's None), or hold a number. *)
Inductive JsonTemp : Type :=
| TempAbsent
| TempNull
| TempNumber (t : R).

(** The JSON body of the provider's answer, reduced to the two fields the
    program reads; for [message], [None] is an absent key. *)
Record Json : Type := mkJson
  { temp : JsonTemp;
    message : option string }.

(** The number under ['main']['temp'], when there is one. *)
Definition main_temp (body : Json) : option R :=
  match temp body with
  | TempNumber t => Some t
  | TempAbsent | TempNull => None
  end.

(** An answer of the provider: the request has returned and its body has
    been decoded.  A request or a decoding that raises is not modelled. *)
Record Response : Type := mkResponse
  { status_code : nat;
    json : Json }.

Definition weather_url (city api_key : string) : string :=
  ("http://api.openweathermap.org/data/2.5/weather?q=" ++ city
   ++ "&appid=" ++ api_key ++ "&units=metric")%string.

(** [get_current_temperature]; [requests_get] is the network. *)
Definition get_current_temperature (requests_get : string -> Response)
  (city api_key : string) : result (option R * option Json) :=
  let response := requests_get (weather_url city api_key) in
  if (status_code response =? 200)%nat
  then match temp (json response) with
       | TempNumber t => Ok (Some t, None)
       | TempNull => Ok (None, None)
       | TempAbsent => Raise KeyError
       end
  else Ok (None, Some (json response)).

(** What the program hands to Streamlit. *)
Inductive st_event : Type :=
| st_title (s : string)
| st_subheader (s : string)
| st_write_describe (data : DataFrame)
| st_pyplot_series (data anomalies : DataFrame)
| st_pyplot_profile (seasonal_stats : list SeasonalStat)
| st_write_current (current_temp : R)
| st_write_status (status : string)
| st_write (s : string)
| st_error (s : string).

Definition status_normal : string := "нормальна".
Definition status_anomalous : string := "аномальна".

(** [display_results] *)
Definition display_results (data : DataFrame) (seasonal_stats : list SeasonalStat)
  (anomalies : DataFrame) (current_temp : option R) (is_normal : bool)
  : list st_event :=
  [ st_title "Анализ температурных данных";
    st_subheader "Описательная статистика";
    st_write_describe data;
    st_subheader "Временной ряд температур с аномалиями";
    st_pyplot_series data anomalies;
    st_subheader "Сезонный профиль";
    st_pyplot_profile seasonal_stats;
    st_subheader "Текущая температура" ]
  ++ match current_temp with
     | Some t =>
         let status := if is_normal then status_normal else status_anomalous in
         [ st_write_current t; st_write_status status ]
     | None => [ st_write "Не удалось получить текущую температуру." ]
     end.

(** Lines 109-112 of [main]: the season of the first row carrying the
    latest timestamp, that season's row of the statistics table, and the
    two-sigma test.  Both frames are already restricted to the city. *)
Definition live_classification (data : DataFrame)
  (seasonal_stats : list SeasonalStat) (current_temp : R) : result bool :=
  let latest := series_max (map timestamp data) in
  current_season <-
    values0 (map season
               (filter (fun r => match latest with
                                 | Some m => (timestamp r =? m)%Z
                                 | None => false
                                 end) data)) ;;
  let of_season :=
    filter (fun s => String.eqb (stat_season s) current_season) seasonal_stats in
  seasonal_mean <- values0 (map stat_mean of_season) ;;
  seasonal_std <- values0 (map stat_std of_season) ;;
  Ok (leb (abs (sub (Some current_temp) seasonal_mean))
          (mul (of_Z 2) seasonal_std)).

Definition error_prefix : string := "Ошибка: ".

Definition page_title : list st_event :=
  [ st_title "Анализ температурных данных" ].

(** The masks [data['city'] == city] and [seasonal_stats['city'] == city]. *)
Definition same_city (c : string) (r : Row) : bool := String.eqb (city r) c.

Definition stat_of_city (c : string) (st : SeasonalStat) : bool :=
  String.eqb (stat_city st) c.

(** [main].  [uploaded_file] is the frame [load_data] read, [selectbox]
    the user's choice among the offered cities, [api_key] the text input. *)
Definition main (uploaded_file : option DataFrame)
  (selectbox : list string -> string) (api_key : string)
  (requests_get : string -> Response) : result (list st_event) :=
  match uploaded_file with
  | None => Ok page_title
  | Some loaded =>
      analysis <- analyze_temperature_data loaded ;;
      let data := fst (fst analysis) in
      let seasonal_stats := snd (fst analysis) in
      let anomalies := snd analysis in
      let city0 := selectbox (unique (map city data)) in
      let data := filter (same_city city0) data in
      let seasonal_stats := filter (stat_of_city city0) seasonal_stats in
      let anomalies := filter (same_city city0) anomalies in
      if String.eqb api_key ""
      then Ok page_title
      else
        fetched <- get_current_temperature requests_get city0 api_key ;;
        match fst fetched with
        | Some current_temp =>
            is_normal <- live_classification data seasonal_stats current_temp ;;
            Ok (page_title
                ++ display_results data seasonal_stats anomalies
                     (Some current_temp) is_normal)
        | None =>
            match snd fetched with
            | Some error_message =>
                match message error_message with
                | Some msg => Ok (page_title ++ [ st_error (error_prefix ++ msg) ])
                | None => Raise KeyError
                end
            | None => Raise TypeError
            end
        end
  end.

(** * Notions used in the statements *)

(** ** Groups and baselines *)

(** The group a row belongs to, its statistics, and the test the detector
    applies to the row. *)
Definition group_of (data : DataFrame) (r : Row) : DataFrame :=
  filter (in_group (row_key r)) data.

Definition group_mean (data : DataFrame) (r : Row) : float :=
  series_mean (temperatures (group_of data r)).

Definition group_stddev (data : DataFrame) (r : Row) : float :=
  series_std (temperatures (group_of data r)).

Definition flagged (data : DataFrame) (r : Row) : bool :=
  anomaly_condition (group_mean data r) (group_stddev data r) r.

(** The loop of [find_anomalies] written over the keys. *)
Definition anomalies_by_group (data : DataFrame) : DataFrame :=
  List.concat (map (fun k => group_anomalies (filter (in_group k) data))
                   (group_keys data)).

Definition mk_stat (data : DataFrame) (k : key) : SeasonalStat :=
  {| stat_city := fst k;
     stat_season := snd k;
     stat_mean := series_mean (temperatures (filter (in_group k) data));
     stat_std := series_std (temperatures (filter (in_group k) data)) |}.

(** The row of the statistics table for the group of record [r]. *)
Definition baseline (data : DataFrame) (r : Row) : SeasonalStat :=
  {| stat_city := city r;
     stat_season := season r;
     stat_mean := group_mean data r;
     stat_std := group_stddev data r |}.

(** [r] is a chronologically latest record of city [c]. *)
Definition latest_record (data : DataFrame) (c : string) (r : Row) : Prop :=
  In r data /\ city r = c
  /\ forall r', In r' data -> city r' = c -> (timestamp r' <= timestamp r)%Z.

Definition has_temperature (r : Row) : bool :=
  match temperature r with
  | Some _ => true
  | None => false
  end.

(** ** The range of the rolling sum *)

(** The largest finite float64, (2^53 - 1) * 2^971. *)
Definition float64_max : R := IZR ((2 ^ 53 - 1) * 2 ^ 971).

(** The sum of the absolute values of the present cells of a column. *)
Definition magnitude (xs : list float) : R := Rsum (map Rabs (dropna xs)).

(** The raw temperatures of rows [0 .. i] are small enough for the running
    sum of the rolling mean to stay finite up to row [i]: their absolute
    values add up to at most half the largest float64, so that no sum of
    some of them, rounded or not, reaches the overflow threshold. *)
Definition rolling_in_range (data : DataFrame) (i : nat) : Prop :=
  (magnitude (firstn (S i) (temperatures data)) <= float64_max / 2)%R.

(** ** The run of [main] *)

Definition smoothed (loaded : DataFrame) : DataFrame :=
  smooth_temperature loaded default_window.

Definition chosen_city (loaded : DataFrame) (selectbox : list string -> string)
  : string :=
  selectbox (unique (map city (smoothed loaded))).

(** What [main] shows after a successful fetch. *)
Definition shown (loaded : DataFrame) (c : string) (t : R) (is_normal : bool)
  : list st_event :=
  page_title
  ++ display_results
       (filter (same_city c) (smoothed loaded))
       (filter (stat_of_city c) (calculate_seasonal_statistics (smoothed loaded)))
       (filter (same_city c) (anomalies_by_group (smoothed loaded)))
       (Some t) is_normal.

(** ** The specification's readings that the program does not follow *)

Inductive subsequence {A : Type} : list A -> list A -> Prop :=
| sub_nil : forall l, subsequence [] l
| sub_take : forall a l1 l2, subsequence l1 l2 -> subsequence (a :: l1) (a :: l2)
| sub_skip : forall a l1 l2, subsequence l1 l2 -> subsequence l1 (a :: l2).

(** The detector's output keeps the relative order of the store. *)
Definition order_preserved (data : DataFrame) : Prop :=
  forall out, find_anomalies data = Ok out -> subsequence out data.

(** The trailing [W] records of city [c] up to and including row [i]. *)
Definition city_trailing (data : DataFrame) (c : string) (i W : nat) : DataFrame :=
  let history := filter (same_city c) (firstn (S i) data) in
  skipn (List.length history - W) history.

(** Smoothing per city: at a row with at least [W] earlier records of its
    own city, the smoothed value is the mean of the trailing [W] raw
    temperatures of that city. *)
Definition per_city_smoothing (data : DataFrame) (W : nat) : Prop :=
  forall i r0 r,
    nth_error data i = Some r0 ->
    (W <= List.length (filter (same_city (city r0)) (firstn i data)))%nat ->
    nth_error (smooth_temperature data W) i = Some r ->
    temperature r
    = Some (arith_mean (dropna (temperatures (city_trailing data (city r0) i W)))).

(** A stage that needs a smoothed value fails when a record lacks it. *)
Definition missing_value_fails (loaded : DataFrame) : Prop :=
  (exists r, In r (smooth_temperature loaded default_window)
             /\ temperature r = nan) ->
  exists e, analyze_temperature_data loaded = Raise e.

(** A status that is neither of the two the program can print. *)
Definition reports_indeterminate (events : list st_event) : Prop :=
  ~ In (st_write_status status_normal) events
  /\ ~ In (st_write_status status_anomalous) events.

(** An undefined baseline gives no exception and an indeterminate status. *)
Definition undefined_baseline_indeterminate (loaded : DataFrame)
  (selectbox : list string -> string) (api_key : string)
  (requests_get : string -> Response) : Prop :=
  forall r,
    latest_record (smoothed loaded) (chosen_city loaded selectbox) r ->
    group_stddev (smoothed loaded) r = nan ->
    exists events,
      main (Some loaded) selectbox api_key requests_get = Ok events
      /\ reports_indeterminate events.




(** ** Example frames and providers *)

Definition winter (t : Z) (c : string) (x : R) : Row :=
  {| timestamp := t; city := c; season := "winter"; temperature := Some x |}.

Definition one_row : DataFrame := [ winter 1 "A" 0 ].

Definition two_rows : DataFrame := [ winter 1 "A" 0; winter 2 "A" 2 ].

(** Thirty-one daily records of one city, the reading of day [n] being [n]
    degrees: under the window of 30 the last two carry a smoothed value. *)
Definition month : DataFrame :=
  map (fun n => winter (Z.of_nat n) "A" (INR n)) (seq 1 31).

(** Five readings of 0 and one of 6 in one city: mean 1, variance 6. *)
Definition spike (c : string) (t0 : Z) : DataFrame :=
  [ winter t0 c 0; winter (t0 + 1) c 0; winter (t0 + 2) c 0;
    winter (t0 + 3) c 0; winter (t0 + 4) c 0; winter (t0 + 5) c 6 ].

(** City B is uploaded before city A. *)
Definition shuffled : DataFrame := spike "B" 1 ++ spike "A" 7.

(** Cities A and B alternate, A at 0 degrees and B at 10. *)
Definition interleaved : DataFrame :=
  [ winter 1 "A" 0; winter 2 "B" 10; winter 3 "A" 0; winter 4 "B" 10;
    winter 5 "A" 0 ].

(** A provider that answers 200 with 5 degrees, and one that answers 404. *)
Definition five_degrees (url : string) : Response :=
  {| status_code := 200;
     json := {| temp := TempNumber 5; message := None |} |}.


(** A store whose second record has no raw temperature. *)
Definition gap : DataFrame :=
  [ winter 1 "A" 0; set_temperature (winter 2 "A" 0) nan; winter 3 "A" 4 ].

(** The (city, season) pair a row of the statistics table stands for. *)
Definition stat_key (st : SeasonalStat) : key := (stat_city st, stat_season st).

(** The number of records of a frame that carry a temperature. *)
Definition present_count (l : DataFrame) : nat :=
  List.length (filter has_temperature l).

(** The keys of one city. *)
Definition key_of_city (c : string) (k : key) : bool := String.eqb (fst k) c.

(** A provider that answers 200 with a body whose temperature is null. *)
Definition null_temperature (url : string) : Response :=
  {| status_code := 200; json := {| temp := TempNull; message := None |} |}.

(** Two records of one city with the same timestamp and different seasons. *)
Definition tied : DataFrame :=
  [ winter 1 "A" 0;
    {| timestamp := 2; city := "A"; season := "spring"; temperature := Some 0%R |};
    {| timestamp := 2; city := "A"; season := "summer"; temperature := Some 0%R |} ].

(** * Properties *)

(** ** The order on group keys *)

Section KeyOrder.

Lemma ascii_compare_refl (a : ascii) : Ascii.compare a a = Eq.
Proof. unfold Ascii.compare. apply N.compare_refl. Qed.

Lemma ascii_compare_lt_trans (a b c : ascii) :
  Ascii.compare a b = Lt -> Ascii.compare b c = Lt -> Ascii.compare a c = Lt.
Proof.
  unfold Ascii.compare. rewrite !N.compare_lt_iff. apply N.lt_trans.
Qed.

Lemma string_compare_refl (s : string) : String.compare s s = Eq.
Proof.
  induction s as [|a s IH]; simpl; [reflexivity|].
  now rewrite ascii_compare_refl.
Qed.

Lemma string_compare_eq (s t : string) : String.compare s t = Eq <-> s = t.
Proof.
  split; [apply String.compare_eq_iff|].
  intros ->. apply string_compare_refl.
Qed.

Lemma string_compare_lt_trans (s t u : string) :
  String.compare s t = Lt -> String.compare t u = Lt -> String.compare s u = Lt.
Proof.
  revert t u. induction s as [|a s IH]; intros [|b t] [|c u]; simpl;
    try discriminate; try reflexivity.
  destruct (Ascii.compare a b) eqn:Eab; try discriminate.
  - apply Ascii.compare_eq_iff in Eab. subst b.
    destruct (Ascii.compare a c); try discriminate; try reflexivity.
    intros H1 H2. apply (IH t u H1 H2).
  - intros _.
    destruct (Ascii.compare b c) eqn:Ebc; try discriminate.
    + apply Ascii.compare_eq_iff in Ebc. subst c. now rewrite Eab.
    + intros _. now rewrite (ascii_compare_lt_trans _ _ _ Eab Ebc).
Qed.

Lemma key_compare_eq (a b : key) : key_compare a b = Eq <-> a = b.
Proof.
  destruct a as [a1 a2], b as [b1 b2]. unfold key_compare. simpl. split.
  - destruct (String.compare a1 b1) eqn:E1; try discriminate.
    intros E2. apply string_compare_eq in E1, E2. congruence.
  - intros H. inversion H. subst. now rewrite !string_compare_refl.
Qed.

Lemma key_eqb_eq (a b : key) : key_eqb a b = true <-> a = b.
Proof.
  destruct a as [a1 a2], b as [b1 b2]. unfold key_eqb. simpl.
  rewrite andb_true_iff, !String.eqb_eq. split.
  - intros [-> ->]. reflexivity.
  - intros H. inversion H. auto.
Qed.

Lemma key_lt_trans (a b c : key) : key_lt a b -> key_lt b c -> key_lt a c.
Proof.
  destruct a as [a1 a2], b as [b1 b2], c as [c1 c2].
  unfold key_lt, key_compare. simpl.
  destruct (String.compare a1 b1) eqn:E1; try discriminate;
    destruct (String.compare b1 c1) eqn:E2; try discriminate; intros H1 H2.
  - apply string_compare_eq in E1, E2. subst.
    rewrite string_compare_refl. eapply string_compare_lt_trans; eauto.
  - apply string_compare_eq in E1. subst. now rewrite E2.
  - apply string_compare_eq in E2. subst. now rewrite E1.
  - now rewrite (string_compare_lt_trans _ _ _ E1 E2).
Qed.

Lemma key_lt_irrefl (a : key) : ~ key_lt a a.
Proof.
  unfold key_lt. intros H.
  assert (E : key_compare a a = Eq) by now apply key_compare_eq.
  congruence.
Qed.

Lemma key_compare_antisym (a b : key) :
  key_compare a b = CompOpp (key_compare b a).
Proof.
  unfold key_compare.
  rewrite (String.compare_antisym (fst b) (fst a)).
  rewrite (String.compare_antisym (snd b) (snd a)).
  destruct (String.compare (fst a) (fst b)); simpl;
    try reflexivity.
  now destruct (String.compare (snd a) (snd b)).
Qed.

Lemma key_lt_le (a b : key) : key_lt a b -> key_le a b.
Proof. unfold key_lt, key_le. congruence. Qed.

Lemma key_le_refl (a : key) : key_le a a.
Proof.
  unfold key_le. assert (E : key_compare a a = Eq) by now apply key_compare_eq.
  congruence.
Qed.

End KeyOrder.

(** ** The sorted list of distinct keys *)

Lemma insert_key_In (k x : key) (l : list key) :
  In x (insert_key k l) <-> x = k \/ In x l.
Proof.
  induction l as [|h t IH]; simpl.
  - intuition.
  - destruct (key_compare k h) eqn:E; simpl.
    + apply key_compare_eq in E. subst h. intuition.
    + intuition.
    + rewrite IH. intuition.
Qed.

Lemma insert_key_sorted (k : key) (l : list key) :
  StronglySorted key_lt l -> StronglySorted key_lt (insert_key k l).
Proof.
  induction 1 as [|h t Hs IH Hall]; simpl.
  - repeat constructor.
  - destruct (key_compare k h) eqn:E.
    + now constructor.
    + constructor; [now constructor|].
      constructor; [exact E|].
      rewrite Forall_forall in *. intros y Hy.
      eapply key_lt_trans; [exact E|]. now apply Hall.
    + constructor; [exact IH|].
      rewrite Forall_forall in *. intros y Hy.
      apply insert_key_In in Hy. destruct Hy as [->|Hy].
      * unfold key_lt. rewrite key_compare_antisym, E. reflexivity.
      * now apply Hall.
Qed.

Lemma group_keys_In (data : DataFrame) (k : key) :
  In k (group_keys data) <-> exists r, In r data /\ row_key r = k.
Proof.
  induction data as [|r data IH]; simpl.
  - split; [tauto|]. intros [r [[] _]].
  - rewrite insert_key_In, IH. split.
    + intros [->|[r' [Hin Hk]]]; [exists r; auto|exists r'; auto].
    + intros [r' [[->|Hin] Hk]]; [left; auto|right; exists r'; auto].
Qed.

Lemma group_keys_sorted (data : DataFrame) :
  StronglySorted key_lt (group_keys data).
Proof.
  induction data as [|r data IH]; simpl.
  - constructor.
  - now apply insert_key_sorted.
Qed.

Lemma group_keys_nil (data : DataFrame) : group_keys data = [] <-> data = [].
Proof.
  split; [|intros ->; reflexivity].
  destruct data as [|r data]; [reflexivity|].
  intros H. exfalso.
  assert (Hin : In (row_key r) (group_keys (r :: data))).
  { apply group_keys_In. exists r. simpl. auto. }
  rewrite H in Hin. exact Hin.
Qed.

Lemma in_group_iff (k : key) (r : Row) : in_group k r = true <-> row_key r = k.
Proof. unfold in_group. apply key_eqb_eq. Qed.

(** ** The anomaly detector, group by group *)

Lemma find_anomalies_unfold (data : DataFrame) :
  find_anomalies data =
  match data with
  | [] => Raise ValueError
  | _ :: _ => Ok (anomalies_by_group data)
  end.
Proof.
  unfold find_anomalies, groupby, anomalies_by_group.
  rewrite map_map. simpl.
  destruct data as [|r data]; [reflexivity|].
  destruct (group_keys (r :: data)) as [|k ks] eqn:E.
  - apply group_keys_nil in E. discriminate.
  - reflexivity.
Qed.

Lemma find_anomalies_Ok (data out : DataFrame) :
  find_anomalies data = Ok out -> out = anomalies_by_group data.
Proof.
  rewrite find_anomalies_unfold. destruct data; [discriminate|].
  intros H. now inversion H.
Qed.

Lemma group_anomalies_flagged (data : DataFrame) (k : key) :
  group_anomalies (filter (in_group k) data)
  = filter (flagged data) (filter (in_group k) data).
Proof.
  unfold group_anomalies. apply filter_ext_in.
  intros r Hr. apply filter_In in Hr. destruct Hr as [_ Hk].
  apply in_group_iff in Hk. unfold flagged, group_mean, group_stddev, group_of.
  now rewrite Hk.
Qed.

Lemma anomalies_by_group_In (data : DataFrame) (r : Row) :
  In r (anomalies_by_group data) <-> In r data /\ flagged data r = true.
Proof.
  unfold anomalies_by_group. rewrite in_concat. split.
  - intros [g [Hg Hr]]. apply in_map_iff in Hg. destruct Hg as [k [<- _]].
    rewrite group_anomalies_flagged in Hr.
    apply filter_In in Hr. destruct Hr as [Hr Hf].
    apply filter_In in Hr. tauto.
  - intros [Hr Hf]. exists (group_anomalies (filter (in_group (row_key r)) data)).
    split.
    + apply in_map_iff. exists (row_key r). split; [reflexivity|].
      apply group_keys_In. now exists r.
    + rewrite group_anomalies_flagged. apply filter_In. split; [|exact Hf].
      apply filter_In. split; [exact Hr|]. now apply in_group_iff.
Qed.

(** The two-sided test of the loop body is the two-sigma distance test. *)
Lemma anomaly_condition_spec (m s : R) (r : Row) :
  anomaly_condition (Some m) (Some s) r = true
  <-> exists x, temperature r = Some x /\ (Rabs (x - m) > 2 * s)%R.
Proof.
  unfold anomaly_condition, gtb, ltb, sub, add, mul, of_Z, lift2.
  destruct (temperature r) as [x|].
  - rewrite orb_true_iff. split.
    + intros H. exists x. split; [reflexivity|].
      unfold Rabs.
      destruct (Rlt_dec x (m - 2 * s)), (Rlt_dec (m + 2 * s) x),
        (Rcase_abs (x - m)); destruct H as [H|H]; try discriminate; lra.
    + intros [y [Hy Habs]]. inversion Hy. subst y.
      unfold Rabs in Habs.
      destruct (Rlt_dec x (m - 2 * s)), (Rlt_dec (m + 2 * s) x),
        (Rcase_abs (x - m)); auto; lra.
  - simpl. split; [discriminate|]. intros [x [Hx _]]. discriminate.
Qed.

Lemma anomaly_condition_nan_std (m : float) (r : Row) :
  anomaly_condition m nan r = false.
Proof.
  unfold anomaly_condition, gtb, ltb, sub, add, mul, of_Z, lift2, nan.
  destruct (temperature r), m; reflexivity.
Qed.

Lemma anomaly_condition_nan_temperature (m s : float) (r : Row) :
  temperature r = nan -> anomaly_condition m s r = false.
Proof.
  unfold anomaly_condition, gtb, ltb, nan. intros ->.
  destruct (sub m (mul (of_Z 2) s)), (add m (mul (of_Z 2) s)); reflexivity.
Qed.

Lemma dropna_length (xs : list float) : (List.length (dropna xs) <= List.length xs)%nat.
Proof.
  induction xs as [|[x|] xs IH]; simpl; lia.
Qed.

Lemma series_std_small (xs : list float) :
  (List.length xs < 2)%nat -> series_std xs = nan.
Proof.
  intros H. unfold series_std.
  pose proof (dropna_length xs) as Hd.
  destruct (Nat.leb_spec (List.length (dropna xs)) 1); [reflexivity|lia].
Qed.

Lemma series_std_defined (xs : list float) (s : R) :
  series_std xs = Some s -> (2 <= List.length (dropna xs))%nat.
Proof.
  unfold series_std.
  destruct (Nat.leb_spec (List.length (dropna xs)) 1); [discriminate|lia].
Qed.

(** ** Small groups and the empty store *)

(** C6.  A (city, season) group with fewer than two records has NaN as its
    sample standard deviation, in the detector and in the statistics table
    (not zero, and nothing raises), and no record of such a group is in the
    detector's output. *)
Theorem small_group_not_flagged (data : DataFrame) (r : Row) :
  In r data ->
  (List.length (group_of data r) < 2)%nat ->
  group_stddev data r = nan
  /\ group_stddev data r <> Some 0%R
  /\ (exists st, In st (calculate_seasonal_statistics data)
                 /\ stat_city st = city r /\ stat_season st = season r
                 /\ stat_std st = nan)
  /\ (exists out, find_anomalies data = Ok out /\ ~ In r out).
Proof.
  intros Hr Hlen.
  assert (Hstd : group_stddev data r = nan).
  { unfold group_stddev, temperatures. apply series_std_small.
    now rewrite length_map. }
  split; [exact Hstd|]. split; [rewrite Hstd; discriminate|]. split.
  - exists {| stat_city := city r; stat_season := season r;
              stat_mean := group_mean data r;
              stat_std := group_stddev data r |}.
    split; [|now simpl].
    unfold calculate_seasonal_statistics, groupby. rewrite map_map.
    apply in_map_iff. exists (row_key r). split; [reflexivity|].
    apply group_keys_In. now exists r.
  - exists (anomalies_by_group data). split.
    + rewrite find_anomalies_unfold. destruct data; [destruct Hr|reflexivity].
    + rewrite anomalies_by_group_In. unfold flagged. rewrite Hstd.
      rewrite anomaly_condition_nan_std. intros [_ H]. discriminate.
Qed.

Lemma small_group_not_flagged_witness :
  group_stddev one_row (winter 1 "A" 0) = nan
  /\ group_stddev one_row (winter 1 "A" 0) <> Some 0%R
  /\ (exists st, In st (calculate_seasonal_statistics one_row)
                 /\ stat_city st = "A"%string /\ stat_season st = "winter"%string
                 /\ stat_std st = nan)
  /\ (exists out, find_anomalies one_row = Ok out /\ ~ In (winter 1 "A" 0) out).
Proof.
  apply (@small_group_not_flagged one_row (winter 1 "A" 0)).
  - simpl. left. reflexivity.
  - simpl. lia.
Defined.

(** C10.  On a frame without records the detector raises (pd.concat of an
    empty list) instead of returning an empty sequence; on every frame with
    at least one record it returns. *)
Theorem find_anomalies_empty_raises :
  find_anomalies [] = Raise ValueError
  /\ find_anomalies [] <> Ok []
  /\ (forall data, data <> [] -> exists out, find_anomalies data = Ok out)
  /\ (forall data e, find_anomalies data = Raise e -> data = []).
Proof.
  split; [reflexivity|]. split; [discriminate|]. split.
  - intros data Hne. rewrite find_anomalies_unfold.
    destruct data; [congruence|]. eexists. reflexivity.
  - intros data e. rewrite find_anomalies_unfold.
    destruct data; [reflexivity|discriminate].
Qed.

Lemma find_anomalies_empty_raises_witness :
  one_row <> [] /\ exists out, find_anomalies one_row = Ok out.
Proof.
  split; [discriminate|].
  apply (proj1 (proj2 (proj2 find_anomalies_empty_raises)) one_row).
  discriminate.
Defined.

(** ** Order of the detector's output *)

Lemma sqrt6_sq : (sqrt 6 * sqrt 6 = 6 /\ 0 <= sqrt 6)%R.
Proof.
  split; [apply sqrt_sqrt; lra|apply sqrt_pos].
Qed.

Lemma spike_mean (c : string) (t0 : Z) :
  series_mean (temperatures (spike c t0)) = Some 1%R.
Proof.
  unfold series_mean, arith_mean. simpl. f_equal. lra.
Qed.

Lemma spike_std (c : string) (t0 : Z) :
  series_std (temperatures (spike c t0)) = Some (sqrt 6).
Proof.
  unfold series_std, arith_mean. simpl. f_equal. f_equal. lra.
Qed.

Lemma spike_anomalies (c : string) (t0 : Z) :
  group_anomalies (spike c t0) = [ winter (t0 + 5) c 6 ].
Proof.
  unfold group_anomalies. rewrite spike_mean, spike_std.
  destruct sqrt6_sq as [Hsq Hpos].
  assert (H0 : forall t, anomaly_condition (Some 1%R) (Some (sqrt 6)) (winter t c 0) = false).
  { intros t. apply not_true_is_false. rewrite anomaly_condition_spec.
    intros [x [Hx Habs]]. inversion Hx. subst x.
    unfold Rabs in Habs. destruct (Rcase_abs (0 - 1)); nra. }
  assert (H6 : forall t, anomaly_condition (Some 1%R) (Some (sqrt 6)) (winter t c 6) = true).
  { intros t. rewrite anomaly_condition_spec. exists 6%R. split; [reflexivity|].
    unfold Rabs. destruct (Rcase_abs (6 - 1)); nra. }
  unfold spike. cbn [filter]. now rewrite !H0, H6.
Qed.

Lemma shuffled_anomalies :
  find_anomalies shuffled = Ok [ winter 12 "A" 6; winter 6 "B" 6 ].
Proof.
  rewrite find_anomalies_unfold. unfold shuffled at 1. cbn [spike app].
  f_equal. unfold anomalies_by_group.
  change (group_keys shuffled)
    with [ ("A", "winter"); ("B", "winter") ]%string.
  cbn [map List.concat].
  change (filter (in_group ("A", "winter")%string) shuffled) with (spike "A" 7).
  change (filter (in_group ("B", "winter")%string) shuffled) with (spike "B" 1).
  rewrite !spike_anomalies. reflexivity.
Qed.

(** C5 as stated fails: with city B uploaded before city A, the flagged
    record of A comes out before the flagged record of B. *)
Lemma order_not_preserved : ~ order_preserved shuffled.
Proof.
  intros H. specialize (H _ shuffled_anomalies).
  unfold shuffled, spike, winter in H. cbn [app] in H.
  repeat match goal with
         | H : subsequence (_ :: _) (_ :: _) |- _ =>
             inversion H; subst; clear H; try discriminate
         | H : subsequence (_ :: _) [] |- _ => inversion H
         end.
Qed.

Lemma key_lt_le_trans (a b c : key) : key_lt a b -> key_le b c -> key_lt a c.
Proof.
  unfold key_le. intros Hab Hbc.
  destruct (key_compare b c) eqn:E; [| |congruence].
  - apply key_compare_eq in E. now subst.
  - now apply key_lt_trans with b.
Qed.

Lemma key_le_trans (a b c : key) : key_le a b -> key_le b c -> key_le a c.
Proof.
  intros Hab Hbc. unfold key_le in Hab.
  destruct (key_compare a b) eqn:E; [| |congruence].
  - apply key_compare_eq in E. now subst.
  - apply key_lt_le. now apply key_lt_le_trans with b.
Qed.

Lemma StronglySorted_app {A : Type} (R : A -> A -> Prop) (l1 l2 : list A) :
  StronglySorted R l1 -> StronglySorted R l2 ->
  (forall x y, In x l1 -> In y l2 -> R x y) ->
  StronglySorted R (l1 ++ l2).
Proof.
  intros H1 H2 H12. induction H1 as [|a l1 Hs IH Hall]; simpl; [exact H2|].
  constructor.
  - apply IH. intros x y Hx Hy. apply H12; simpl; auto.
  - rewrite Forall_forall in *. intros y Hy. apply in_app_or in Hy.
    destruct Hy as [Hy|Hy]; [now apply Hall|apply H12; simpl; auto].
Qed.

Lemma same_key_sorted (k : key) (l : DataFrame) :
  (forall r, In r l -> row_key r = k) ->
  StronglySorted key_le (map row_key l).
Proof.
  induction l as [|a l IH]; intros Hk; simpl; constructor.
  - apply IH. intros r Hr. apply Hk. simpl. auto.
  - rewrite Forall_forall. intros y Hy. apply in_map_iff in Hy.
    destruct Hy as [r [<- Hr]].
    rewrite (Hk a), (Hk r); simpl; auto. apply key_le_refl.
Qed.

(** Frames emitted group by group over ascending keys are sorted by key. *)
Lemma concat_groups_sorted (f : key -> DataFrame) (ks : list key) :
  (forall k r, In r (f k) -> row_key r = k) ->
  StronglySorted key_lt ks ->
  StronglySorted key_le (map row_key (List.concat (map f ks))).
Proof.
  intros Hf. induction 1 as [|k ks Hs IH Hall]; simpl; [constructor|].
  rewrite map_app. apply StronglySorted_app.
  - apply same_key_sorted with k. intros r. apply Hf.
  - exact IH.
  - intros x y Hx Hy. apply in_map_iff in Hx, Hy.
    destruct Hx as [r [<- Hr]]. destruct Hy as [r' [<- Hr']].
    apply in_concat in Hr'. destruct Hr' as [g [Hg Hr']].
    apply in_map_iff in Hg. destruct Hg as [k' [<- Hk']].
    rewrite (Hf _ _ Hr), (Hf _ _ Hr'). apply key_lt_le.
    rewrite Forall_forall in Hall. now apply Hall.
Qed.

Lemma filter_filter_comm {A : Type} (f g : A -> bool) (l : list A) :
  filter f (filter g l) = filter g (filter f l).
Proof.
  induction l as [|a l IH]; simpl; [reflexivity|].
  destruct (f a) eqn:Ef, (g a) eqn:Eg; simpl; rewrite ?Ef, ?Eg, IH; reflexivity.
Qed.

Lemma filter_none {A : Type} (f : A -> bool) (l : list A) :
  (forall x, In x l -> f x = false) -> filter f l = [].
Proof.
  induction l as [|a l IH]; intros H; simpl; [reflexivity|].
  rewrite (H a) by (simpl; auto). apply IH. intros x Hx. apply H. simpl. auto.
Qed.

Lemma filter_all {A : Type} (f : A -> bool) (l : list A) :
  (forall x, In x l -> f x = true) -> filter f l = l.
Proof.
  induction l as [|a l IH]; intros H; simpl; [reflexivity|].
  rewrite (H a) by (simpl; auto). f_equal. apply IH.
  intros x Hx. apply H. simpl. auto.
Qed.

(** Restricting the group-by-group output to one key gives that key's
    frame. *)
Lemma filter_concat_groups_notin (f : key -> DataFrame) (ks : list key) (k : key) :
  (forall k' r, In r (f k') -> row_key r = k') ->
  ~ In k ks ->
  filter (in_group k) (List.concat (map f ks)) = [].
Proof.
  intros Hf Hk. apply filter_none. intros r Hr.
  apply in_concat in Hr. destruct Hr as [g [Hg Hr]].
  apply in_map_iff in Hg. destruct Hg as [k' [<- Hk']].
  apply not_true_is_false. rewrite in_group_iff, (Hf _ _ Hr).
  intros ->. contradiction.
Qed.

Lemma filter_concat_groups_in (f : key -> DataFrame) (ks : list key) (k : key) :
  (forall k' r, In r (f k') -> row_key r = k') ->
  StronglySorted key_lt ks ->
  In k ks ->
  filter (in_group k) (List.concat (map f ks)) = f k.
Proof.
  intros Hf. induction 1 as [|k0 ks Hs IH Hall]; intros Hk; [destruct Hk|].
  simpl. rewrite filter_app. rewrite Forall_forall in Hall.
  destruct Hk as [->|Hk].
  - rewrite filter_all, filter_concat_groups_notin, app_nil_r; auto.
    + intros Hin. apply (key_lt_irrefl (Hall _ Hin)).
    + intros r Hr. apply in_group_iff. now apply Hf.
  - rewrite filter_none, IH; auto.
    intros r Hr. apply not_true_is_false. rewrite in_group_iff, (Hf _ _ Hr).
    intros ->. apply (key_lt_irrefl (Hall _ Hk)).
Qed.

Lemma anomalies_by_group_flagged (data : DataFrame) :
  anomalies_by_group data
  = List.concat (map (fun k => filter (flagged data) (filter (in_group k) data))
                     (group_keys data)).
Proof.
  unfold anomalies_by_group. f_equal. apply map_ext.
  intros k. apply group_anomalies_flagged.
Qed.

Lemma flagged_group_key (data : DataFrame) (k : key) (r : Row) :
  In r (filter (flagged data) (filter (in_group k) data)) -> row_key r = k.
Proof.
  intros Hr. apply filter_In in Hr. destruct Hr as [Hr _].
  apply filter_In in Hr. destruct Hr as [_ Hr]. now apply in_group_iff.
Qed.

Lemma anomalies_by_group_sorted (data : DataFrame) :
  StronglySorted key_le (map row_key (anomalies_by_group data)).
Proof.
  rewrite anomalies_by_group_flagged.
  apply concat_groups_sorted with
    (f := fun k => filter (flagged data) (filter (in_group k) data)).
  - intros k r. apply flagged_group_key.
  - apply group_keys_sorted.
Qed.

Lemma key_eq_dec (a b : key) : {a = b} + {a <> b}.
Proof.
  decide equality; apply string_dec.
Qed.

Lemma anomalies_by_group_restrict (data : DataFrame) (k : key) :
  filter (in_group k) (anomalies_by_group data)
  = filter (in_group k) (filter (flagged data) data).
Proof.
  rewrite anomalies_by_group_flagged.
  rewrite (filter_filter_comm (in_group k) (flagged data) data).
  destruct (in_dec key_eq_dec k (group_keys data)) as [Hin|Hnot].
  - apply filter_concat_groups_in with
      (f := fun k => filter (flagged data) (filter (in_group k) data)); auto.
    + intros k' r. apply flagged_group_key.
    + apply group_keys_sorted.
  - rewrite filter_concat_groups_notin with
      (f := fun k => filter (flagged data) (filter (in_group k) data)); auto.
    + symmetry. apply filter_none. intros r Hr. exfalso.
      apply Hnot. apply group_keys_In.
      apply filter_In in Hr. destruct Hr as [Hr Hk].
      exists r. split; [exact Hr|]. now apply in_group_iff.
    + intros k' r. apply flagged_group_key.
Qed.

Lemma filter_below_sorted (k : key) (b : Row) (l : DataFrame) :
  StronglySorted key_le (map row_key (b :: l)) ->
  key_lt k (row_key b) ->
  filter (in_group k) (b :: l) = [].
Proof.
  intros Hs Hlt. apply filter_none. intros r Hr.
  apply not_true_is_false. rewrite in_group_iff. intros <-.
  simpl in Hs. apply StronglySorted_inv in Hs. destruct Hs as [_ Hall].
  destruct Hr as [->|Hr]; [exact (key_lt_irrefl Hlt)|].
  rewrite Forall_forall in Hall.
  assert (Hle : key_le (row_key b) (row_key r)) by (apply Hall; now apply in_map).
  exact (key_lt_irrefl (key_lt_le_trans Hlt Hle)).
Qed.

Lemma filter_tail_eq (k : key) (a : Row) (l1 l2 : DataFrame) :
  filter (in_group k) (a :: l1) = filter (in_group k) (a :: l2) ->
  filter (in_group k) l1 = filter (in_group k) l2.
Proof.
  simpl. destruct (in_group k a); [|auto]. intros H. now inversion H.
Qed.

(** Two frames sorted by key that agree key by key are the same frame. *)
Lemma sorted_same_groups_eq (l1 l2 : DataFrame) :
  StronglySorted key_le (map row_key l1) ->
  StronglySorted key_le (map row_key l2) ->
  (forall k, filter (in_group k) l1 = filter (in_group k) l2) ->
  l1 = l2.
Proof.
  revert l2. induction l1 as [|a l1 IH]; intros [|b l2] H1 H2 H.
  - reflexivity.
  - specialize (H (row_key b)). simpl in H.
    rewrite (proj2 (in_group_iff (row_key b) b) eq_refl) in H. discriminate.
  - specialize (H (row_key a)). simpl in H.
    rewrite (proj2 (in_group_iff (row_key a) a) eq_refl) in H. discriminate.
  - destruct (key_compare (row_key a) (row_key b)) eqn:E.
    + apply key_compare_eq in E.
      assert (Hab : a = b).
      { specialize (H (row_key a)). simpl in H.
        rewrite (proj2 (in_group_iff (row_key a) a) eq_refl) in H.
        rewrite (proj2 (in_group_iff (row_key a) b) (eq_sym E)) in H.
        now inversion H. }
      subst b. f_equal. apply IH.
      * simpl in H1. now apply StronglySorted_inv in H1.
      * simpl in H2. now apply StronglySorted_inv in H2.
      * intros k. apply filter_tail_eq with a. apply H.
    + specialize (H (row_key a)).
      rewrite (filter_below_sorted H2 E) in H. simpl in H.
      rewrite (proj2 (in_group_iff (row_key a) a) eq_refl) in H. discriminate.
    + assert (E' : key_lt (row_key b) (row_key a)).
      { unfold key_lt. rewrite key_compare_antisym, E. reflexivity. }
      specialize (H (row_key b)).
      rewrite (filter_below_sorted H1 E') in H. simpl in H.
      rewrite (proj2 (in_group_iff (row_key b) b) eq_refl) in H. discriminate.
Qed.

Lemma filter_keys_sorted (f : Row -> bool) (l : DataFrame) :
  StronglySorted key_le (map row_key l) ->
  StronglySorted key_le (map row_key (filter f l)).
Proof.
  induction l as [|a l IH]; simpl; intros Hs; [constructor|].
  apply StronglySorted_inv in Hs. destruct Hs as [Hs Hall].
  destruct (f a); simpl; [|now apply IH].
  constructor; [now apply IH|].
  rewrite Forall_forall in *. intros y Hy. apply Hall.
  apply in_map_iff in Hy. destruct Hy as [r [<- Hr]].
  apply filter_In in Hr. apply in_map. tauto.
Qed.

(** C5, amended.  The detector emits the flagged records group by group in
    ascending (city, season) order; within one group the order of the store
    is kept; hence the order of the store is kept throughout when its rows
    are already sorted by (city, season). *)
Theorem anomalies_order (data out : DataFrame) :
  find_anomalies data = Ok out ->
  StronglySorted key_le (map row_key out)
  /\ (forall k, filter (in_group k) out
                = filter (in_group k) (filter (flagged data) data))
  /\ (StronglySorted key_le (map row_key data) ->
      out = filter (flagged data) data).
Proof.
  intros Hout. apply find_anomalies_Ok in Hout. subst out.
  split; [apply anomalies_by_group_sorted|].
  split; [apply anomalies_by_group_restrict|].
  intros Hs. apply sorted_same_groups_eq.
  - apply anomalies_by_group_sorted.
  - now apply filter_keys_sorted.
  - apply anomalies_by_group_restrict.
Qed.

Lemma two_rows_sorted : StronglySorted key_le (map row_key two_rows).
Proof.
  repeat constructor; discriminate.
Qed.

Lemma anomalies_order_witness :
  StronglySorted key_le (map row_key (anomalies_by_group two_rows))
  /\ (forall k, filter (in_group k) (anomalies_by_group two_rows)
                = filter (in_group k) (filter (flagged two_rows) two_rows))
  /\ anomalies_by_group two_rows = filter (flagged two_rows) two_rows.
Proof.
  destruct (@anomalies_order two_rows (anomalies_by_group two_rows) eq_refl)
    as [H1 [H2 H3]].
  split; [exact H1|]. split; [exact H2|]. exact (H3 two_rows_sorted).
Defined.

(** ** Smoothing *)

Lemma nth_error_combine {A B : Type} (l1 : list A) (l2 : list B) (i : nat) :
  nth_error (combine l1 l2) i
  = match nth_error l1 i, nth_error l2 i with
    | Some a, Some b => Some (a, b)
    | _, _ => None
    end.
Proof.
  revert l2 i. induction l1 as [|a l1 IH]; intros [|b l2] [|i]; simpl;
    try reflexivity.
  - now destruct (nth_error l1 i).
  - apply IH.
Qed.

Lemma rolling_mean_nth (W : nat) (xs : list float) (i : nat) :
  nth_error (rolling_mean W xs) i
  = if (i <? List.length xs)%nat then Some (rolling_at W i xs) else None.
Proof.
  unfold rolling_mean. rewrite nth_error_map, nth_error_seq.
  destruct (i <? List.length xs)%nat; reflexivity.
Qed.

Lemma smooth_temperature_nth (data : DataFrame) (W i : nat) (r : Row) :
  nth_error (smooth_temperature data W) i = Some r ->
  exists r0, nth_error data i = Some r0
             /\ r = set_temperature r0 (rolling_at W i (temperatures data)).
Proof.
  unfold smooth_temperature.
  rewrite nth_error_map, nth_error_combine, rolling_mean_nth.
  destruct (nth_error data i) as [r0|] eqn:E; [|discriminate].
  assert (Hlt : (i < List.length (temperatures data))%nat).
  { unfold temperatures. rewrite length_map. apply nth_error_Some. congruence. }
  apply Nat.ltb_lt in Hlt. rewrite Hlt. simpl. intros H. inversion H.
  exists r0. auto.
Qed.

Lemma smooth_temperature_length (data : DataFrame) (W : nat) :
  List.length (smooth_temperature data W) = List.length data.
Proof.
  unfold smooth_temperature, rolling_mean, temperatures.
  rewrite length_map, length_combine, !length_map, length_seq. lia.
Qed.

Lemma dropna_present (v : list R) : dropna (map Some v) = v.
Proof.
  induction v as [|x v IH]; simpl; [reflexivity|now rewrite IH].
Qed.

Lemma window_at_rows (data : DataFrame) (W i : nat) :
  (W <= S i)%nat ->
  window_at W i (temperatures data)
  = temperatures (firstn W (skipn (S i - W) data)).
Proof.
  intros H. unfold window_at, temperatures.
  rewrite firstn_skipn_comm, <- skipn_map, <- firstn_map.
  replace (S i - W + W)%nat with (S i) by lia. reflexivity.
Qed.

Lemma window_rows_length (data : DataFrame) (W i : nat) :
  (W <= S i)%nat -> (i < List.length data)%nat ->
  List.length (firstn W (skipn (S i - W) data)) = W.
Proof.
  intros H1 H2. rewrite length_firstn, length_skipn. lia.
Qed.

(** Before row [W - 1] the window is short and the cell is NaN. *)
Lemma rolling_at_short (W i : nat) (xs : list float) :
  (S i < W)%nat -> rolling_at W i xs = nan.
Proof.
  intros H. unfold rolling_at, window_at.
  pose proof (dropna_length (skipn (S i - W) (firstn (S i) xs))) as Hd.
  rewrite length_skipn, length_firstn in Hd.
  destruct (Nat.leb_spec W
              (List.length (dropna (skipn (S i - W) (firstn (S i) xs)))));
    [lia|reflexivity].
Qed.

(** C1 as stated fails: at the fifth row (city A, two earlier A records at
    0 degrees) the window of two rows contains a reading of city B. *)
Lemma smoothing_mixes_cities : ~ per_city_smoothing interleaved 2.
Proof.
  intros H.
  specialize (H 4%nat (winter 5 "A" 0)
                (winter 5 "A" (arith_mean [10; 0]%R)) eq_refl (le_n 2) eq_refl).
  simpl in H. inversion H as [E]. unfold arith_mean in E. simpl in E. lra.
Qed.

Lemma city_trailing_window (data : DataFrame) (c : string) (W i : nat) :
  (W <= S i)%nat -> (i < List.length data)%nat ->
  (forall r, In r (firstn W (skipn (S i - W) data)) -> city r = c) ->
  city_trailing data c i W = firstn W (skipn (S i - W) data).
Proof.
  intros H1 H2 Hc. unfold city_trailing.
  set (win := firstn W (skipn (S i - W) data)) in *.
  assert (Hsplit : firstn (S i) data
                   = firstn (S i - W) (firstn (S i) data) ++ win).
  { rewrite <- (firstn_skipn (S i - W) (firstn (S i) data)) at 1.
    f_equal. rewrite skipn_firstn_comm. unfold win. f_equal. lia. }
  rewrite Hsplit, filter_app.
  rewrite (filter_all (same_city c) win).
  - rewrite length_app.
    assert (Hw : List.length win = W) by now apply window_rows_length.
    rewrite Hw, Nat.add_sub, skipn_app, skipn_all, Nat.sub_diag.
    reflexivity.
  - intros r Hr. unfold same_city. apply String.eqb_eq. now apply Hc.
Qed.

Lemma float64_max_large : (4 <= float64_max)%R.
Proof.
  unfold float64_max. apply IZR_le. apply Z.leb_le. vm_compute. reflexivity.
Qed.

Lemma two_rows_in_range : rolling_in_range two_rows 1.
Proof.
  pose proof float64_max_large as Hmax.
  unfold rolling_in_range, magnitude, two_rows, temperatures, winter.
  cbn [firstn map temperature dropna Rsum fold_right].
  unfold Rabs. destruct (Rcase_abs 0), (Rcase_abs 2); lra.
Qed.

(** C1, amended.  With [W >= 1] and raw temperatures small enough for the
    running sum not to overflow up to row [i], the smoothed value at row
    [i >= W - 1] of the store, whose trailing [W] rows (of whatever city)
    carry the raw values [v], is the arithmetic mean of [v]; the window
    runs over the whole store in row order, and it is the trailing window
    of one city when those [W] rows all belong to that city. *)
Theorem smoothed_is_trailing_mean (data : DataFrame) (W i : nat) (r : Row)
  (v : list R) :
  (0 < W)%nat ->
  (W <= S i)%nat ->
  rolling_in_range data i ->
  nth_error (smooth_temperature data W) i = Some r ->
  temperatures (firstn W (skipn (S i - W) data)) = map Some v ->
  temperature r = Some (arith_mean v)
  /\ (forall c,
        (forall r', In r' (firstn W (skipn (S i - W) data)) -> city r' = c) ->
        temperature r
        = Some (arith_mean (dropna (temperatures (city_trailing data c i W))))).
Proof.
  intros HW Hi _ Hr Hv.
  assert (Hlen : (i < List.length data)%nat).
  { rewrite <- (smooth_temperature_length data W). apply nth_error_Some.
    congruence. }
  destruct (smooth_temperature_nth data W i Hr) as [r0 [Hr0 ->]].
  assert (Hmean : rolling_at W i (temperatures data) = Some (arith_mean v)).
  { unfold rolling_at. rewrite window_at_rows by exact Hi.
    rewrite Hv, dropna_present.
    assert (Hl : List.length v = W).
    { rewrite <- (length_map Some v), <- Hv. unfold temperatures.
      rewrite length_map. now apply window_rows_length. }
    rewrite Hl, Nat.leb_refl. apply Nat.ltb_lt in HW. now rewrite HW. }
  simpl. split; [exact Hmean|].
  intros c Hc. rewrite city_trailing_window by assumption.
  now rewrite Hv, dropna_present.
Qed.

Lemma smoothed_is_trailing_mean_witness :
  temperature (winter 2 "A" (arith_mean [0; 2]%R))
  = Some (arith_mean [0; 2]%R)
  /\ temperature (winter 2 "A" (arith_mean [0; 2]%R))
     = Some (arith_mean
               (dropna (temperatures (city_trailing two_rows "A" 1 2)))).
Proof.
  destruct (@smoothed_is_trailing_mean two_rows 2 1
              (winter 2 "A" (arith_mean [0; 2]%R)) [0; 2]%R
              (le_S 1 1 (le_n 1)) (le_n 2) two_rows_in_range eq_refl eq_refl)
    as [H1 H2].
  split; [exact H1|]. apply H2.
  intros r' [<-|[<-|[]]]; reflexivity.
Defined.

(** ** Absent smoothed values downstream *)

Lemma dropna_has_temperature (l : DataFrame) :
  dropna (temperatures (filter has_temperature l)) = dropna (temperatures l).
Proof.
  unfold temperatures.
  induction l as [|r l IH]; [reflexivity|].
  cbn [filter map dropna]. unfold has_temperature at 1.
  destruct (temperature r) as [x|] eqn:E.
  - cbn [map dropna]. now rewrite E, IH.
  - exact IH.
Qed.

Lemma series_mean_skipna (l : DataFrame) :
  series_mean (temperatures l)
  = series_mean (temperatures (filter has_temperature l)).
Proof.
  unfold series_mean. now rewrite dropna_has_temperature.
Qed.

Lemma series_std_skipna (l : DataFrame) :
  series_std (temperatures l)
  = series_std (temperatures (filter has_temperature l)).
Proof.
  unfold series_std. now rewrite dropna_has_temperature.
Qed.

(** C8 as stated fails: a single uploaded record has no smoothed value
    under the window of 30, and the analysis still returns. *)
Lemma missing_value_does_not_fail : ~ missing_value_fails one_row.
Proof.
  intros H. destruct H as [e He].
  - exists (set_temperature (winter 1 "A" 0) nan). split.
    + left. reflexivity.
    + reflexivity.
  - discriminate He.
Qed.

(** C8, amended.  A position with fewer than [W - 1] earlier records gets
    NaN, not a number.  Downstream nothing fails on it: each row of the
    statistics table is the mean and standard deviation of the present
    values of its group, and the detector returns without ever flagging a
    record whose smoothed value is absent. *)
Theorem missing_smoothed_value_skipped :
  (forall loaded W i r,
      (S i < W)%nat ->
      nth_error (smooth_temperature loaded W) i = Some r ->
      temperature r = nan)
  /\ (forall data st,
        In st (calculate_seasonal_statistics data) ->
        let present :=
          filter has_temperature
                 (filter (in_group (stat_city st, stat_season st)) data) in
        stat_mean st = series_mean (temperatures present)
        /\ stat_std st = series_std (temperatures present))
  /\ (forall data r,
        In r data -> temperature r = nan ->
        exists out, find_anomalies data = Ok out /\ ~ In r out).
Proof.
  split; [|split].
  - intros loaded W i r Hi Hr.
    destruct (smooth_temperature_nth loaded W i Hr) as [r0 [_ ->]].
    simpl. now apply rolling_at_short.
  - intros data st Hst present.
    unfold calculate_seasonal_statistics, groupby in Hst.
    rewrite map_map in Hst. apply in_map_iff in Hst.
    destruct Hst as [k [<- _]]. simpl. subst present.
    destruct k as [c s]. simpl.
    split; [apply series_mean_skipna|apply series_std_skipna].
  - intros data r Hr Hnan. exists (anomalies_by_group data). split.
    + rewrite find_anomalies_unfold. destruct data; [destruct Hr|reflexivity].
    + rewrite anomalies_by_group_In. unfold flagged.
      rewrite anomaly_condition_nan_temperature by exact Hnan.
      intros [_ H]. discriminate.
Qed.

Lemma missing_smoothed_value_skipped_witness :
  temperature (set_temperature (winter 1 "A" 0) nan) = nan
  /\ exists out,
       find_anomalies (smooth_temperature one_row default_window) = Ok out
       /\ ~ In (set_temperature (winter 1 "A" 0) nan) out.
Proof.
  destruct missing_smoothed_value_skipped as [H1 [_ H3]].
  split.
  - apply (H1 one_row default_window 0%nat).
    + unfold default_window. lia.
    + reflexivity.
  - apply (H3 (smooth_temperature one_row default_window)).
    + left. reflexivity.
    + reflexivity.
Defined.

(** ** Live classification *)

Lemma fold_max_spec (a : Z) (l : list Z) :
  In (fold_right Z.max a l) (a :: l)
  /\ forall x, In x (a :: l) -> (x <= fold_right Z.max a l)%Z.
Proof.
  induction l as [|b l [IHin IHle]]; simpl.
  - split; [auto|]. intros x [->|[]]. lia.
  - split.
    + destruct (Z.max_spec b (fold_right Z.max a l)) as [[_ ->]|[_ ->]].
      * simpl in IHin. tauto.
      * auto.
    + intros x [->|[->|Hx]].
      * specialize (IHle x (or_introl eq_refl)). lia.
      * lia.
      * specialize (IHle x (or_intror Hx)). lia.
Qed.

Lemma series_max_spec (l : list Z) :
  l <> [] ->
  exists m, series_max l = Some m /\ In m l /\ forall x, In x l -> (x <= m)%Z.
Proof.
  destruct l as [|a l]; [congruence|]. intros _.
  exists (fold_right Z.max a l). split; [reflexivity|]. apply fold_max_spec.
Qed.

Lemma filter_head {A : Type} (p : A -> bool) (l : list A) :
  (exists x, In x l /\ p x = true) ->
  exists y rest, filter p l = y :: rest /\ In y l /\ p y = true.
Proof.
  intros [x [Hx Hp]].
  destruct (filter p l) as [|y rest] eqn:E.
  - assert (Hin : In x (filter p l)) by (apply filter_In; auto).
    rewrite E in Hin. destruct Hin.
  - exists y, rest. split; [reflexivity|].
    assert (Hin : In y (filter p l)) by (rewrite E; simpl; auto).
    apply filter_In in Hin. exact Hin.
Qed.

Lemma filter_key_unique (ks : list key) (k : key) :
  StronglySorted key_lt ks -> In k ks ->
  filter (fun k' => key_eqb k' k) ks = [k].
Proof.
  induction 1 as [|k0 ks Hs IH Hall]; intros Hk; [destruct Hk|].
  rewrite Forall_forall in Hall. simpl.
  destruct (key_eqb k0 k) eqn:E.
  - apply key_eqb_eq in E. subst k0. f_equal. apply filter_none.
    intros x Hx. apply not_true_is_false. rewrite key_eqb_eq. intros ->.
    exact (key_lt_irrefl (Hall _ Hx)).
  - destruct Hk as [->|Hk]; [|now apply IH].
    assert (E' : key_eqb k k = true) by now apply key_eqb_eq.
    congruence.
Qed.

Lemma calculate_seasonal_statistics_keys (data : DataFrame) :
  calculate_seasonal_statistics data = map (mk_stat data) (group_keys data).
Proof.
  unfold calculate_seasonal_statistics, groupby. rewrite map_map. reflexivity.
Qed.

Lemma stats_lookup (data : DataFrame) (c s : string) :
  In (c, s) (group_keys data) ->
  filter (fun st => String.eqb (stat_season st) s)
         (filter (stat_of_city c) (calculate_seasonal_statistics data))
  = [ mk_stat data (c, s) ].
Proof.
  intros Hin. rewrite calculate_seasonal_statistics_keys.
  assert (E : forall ks,
             filter (fun st => String.eqb (stat_season st) s)
                    (filter (stat_of_city c) (map (mk_stat data) ks))
             = map (mk_stat data) (filter (fun k' => key_eqb k' (c, s)) ks)).
  { induction ks as [|k ks IH]; [reflexivity|].
    cbn [map filter]. unfold stat_of_city at 1, key_eqb at 1. cbn [mk_stat stat_city fst snd].
    destruct (String.eqb (fst k) c); cbn [andb filter stat_season mk_stat].
    - destruct (String.eqb (snd k) s); cbn [map]; now rewrite IH.
    - exact IH. }
  rewrite E, filter_key_unique; auto. apply group_keys_sorted.
Qed.



Lemma live_classification_eval (data : DataFrame) (c : string) (t : R) :
  In c (map city data) ->
  exists r,
    latest_record data c r
    /\ live_classification (filter (same_city c) data)
         (filter (stat_of_city c) (calculate_seasonal_statistics data)) t
       = Ok (leb (abs (sub (Some t) (group_mean data r)))
                 (mul (of_Z 2) (group_stddev data r))).
Proof.
  intros Hc. apply in_map_iff in Hc. destruct Hc as [r0 [Hc0 Hr0]].
  set (data_c := filter (same_city c) data).
  assert (Hin0 : In r0 data_c).
  { apply filter_In. split; [exact Hr0|]. unfold same_city.
    now apply String.eqb_eq. }
  destruct (series_max_spec (l := map timestamp data_c)) as [m [Hm [Hmin Hmax]]].
  { intros E. apply (in_map timestamp) in Hin0. rewrite E in Hin0. exact Hin0. }
  apply in_map_iff in Hmin. destruct Hmin as [r1 [Ht1 Hr1]].
  destruct (filter_head (fun r => (timestamp r =? m)%Z) data_c)
    as [r [rest [Hf [Hr Htr]]]].
  { exists r1. split; [exact Hr1|]. now apply Z.eqb_eq. }
  apply Z.eqb_eq in Htr.
  apply filter_In in Hr. destruct Hr as [Hr Hcr].
  unfold same_city in Hcr. apply String.eqb_eq in Hcr.
  exists r. split.
  - split; [exact Hr|]. split; [exact Hcr|].
    intros r' Hr' Hc'. rewrite Htr. apply Hmax. apply in_map.
    apply filter_In. split; [exact Hr'|]. unfold same_city.
    now apply String.eqb_eq.
  - unfold live_classification. fold data_c. rewrite Hm, Hf.
    cbn [map values0 bind].
    rewrite stats_lookup.
    + cbn [map values0 bind mk_stat stat_mean stat_std].
      unfold group_mean, group_stddev, group_of, row_key. now rewrite Hcr.
    + apply group_keys_In. exists r. split; [exact Hr|].
      unfold row_key. now rewrite Hcr.
Qed.

Lemma baseline_in_table (data : DataFrame) (r : Row) :
  In r data -> In (baseline data r) (calculate_seasonal_statistics data).
Proof.
  intros Hr. rewrite calculate_seasonal_statistics_keys.
  apply in_map_iff. exists (row_key r). split; [reflexivity|].
  apply group_keys_In. now exists r.
Qed.



(** ** The application *)

Lemma unique_In (l : list string) (x : string) : In x (unique l) <-> In x l.
Proof.
  induction l as [|a l IH]; simpl; [tauto|].
  rewrite filter_In, IH, negb_true_iff, String.eqb_neq.
  destruct (string_dec a x) as [->|Hne]; [tauto|].
  split; [tauto|]. intros [H|H]; [tauto|]. right. split; [exact H|congruence].
Qed.

Lemma smoothed_nonempty (loaded : DataFrame) :
  loaded <> [] -> smoothed loaded <> [].
Proof.
  intros H E. apply (f_equal (@List.length Row)) in E.
  unfold smoothed in E. rewrite smooth_temperature_length in E.
  destruct loaded; [congruence|discriminate].
Qed.

Lemma analyze_temperature_data_Ok (loaded : DataFrame) :
  loaded <> [] ->
  analyze_temperature_data loaded
  = Ok (smoothed loaded,
        calculate_seasonal_statistics (smoothed loaded),
        anomalies_by_group (smoothed loaded)).
Proof.
  intros H. unfold analyze_temperature_data. fold (smoothed loaded).
  rewrite find_anomalies_unfold.
  destruct (smoothed loaded) eqn:E; [|reflexivity].
  now apply smoothed_nonempty in E.
Qed.

Lemma api_key_given (api_key : string) :
  api_key <> ""%string -> String.eqb api_key "" = false.
Proof. intros H. now apply String.eqb_neq. Qed.

Lemma main_fetch_ok (loaded : DataFrame) (selectbox : list string -> string)
  (api_key : string) (requests_get : string -> Response) (t : R) :
  loaded <> [] ->
  api_key <> ""%string ->
  status_code (requests_get (weather_url (chosen_city loaded selectbox) api_key))
  = 200%nat ->
  main_temp (json (requests_get
                     (weather_url (chosen_city loaded selectbox) api_key)))
  = Some t ->
  main (Some loaded) selectbox api_key requests_get
  = (is_normal <-
       live_classification
         (filter (same_city (chosen_city loaded selectbox)) (smoothed loaded))
         (filter (stat_of_city (chosen_city loaded selectbox))
                 (calculate_seasonal_statistics (smoothed loaded))) t ;;
     Ok (shown loaded (chosen_city loaded selectbox) t is_normal)).
Proof.
  intros Hne Hkey Hstatus Htemp. unfold main.
  rewrite (analyze_temperature_data_Ok Hne). cbn [bind fst snd].
  rewrite (api_key_given Hkey). fold (chosen_city loaded selectbox).
  unfold get_current_temperature. rewrite Hstatus. cbn [Nat.eqb].
  unfold main_temp in Htemp.
  destruct (temp (json (requests_get
                          (weather_url (chosen_city loaded selectbox) api_key))));
    try discriminate Htemp.
  inversion Htemp. reflexivity.
Qed.


Lemma display_results_status (data : DataFrame) (stats : list SeasonalStat)
  (anomalies : DataFrame) (t : R) (is_normal : bool) (status : string) :
  In (st_write_status status)
     (page_title ++ display_results data stats anomalies (Some t) is_normal)
  <-> status = (if is_normal then status_normal else status_anomalous).
Proof.
  unfold page_title, display_results. simpl. split.
  - intros H.
    repeat (destruct H as [H|H]; [try discriminate H|]);
      [now inversion H|destruct H].
  - intros ->. do 10 right. left. reflexivity.
Qed.

Lemma status_distinct : status_normal <> status_anomalous.
Proof. discriminate. Qed.

(** C3 as stated fails: one uploaded record leaves its group without a
    standard deviation, and a reading of 5 degrees is reported as
    anomalous. *)
Lemma undefined_baseline_not_indeterminate :
  ~ undefined_baseline_indeterminate one_row (fun _ => "A"%string) "key"
      five_degrees.
Proof.
  intros H.
  destruct (H (set_temperature (winter 1 "A" 0) nan)) as [events [Hmain [_ Hno]]].
  - split; [left; reflexivity|]. split; [reflexivity|].
    intros r' [<-|[]] _. simpl. lia.
  - reflexivity.
  - rewrite (@main_fetch_ok one_row (fun _ => "A"%string) "key" five_degrees 5%R)
      in Hmain; try reflexivity; try discriminate.
    cbn [chosen_city] in Hmain.
    change (live_classification
              (filter (same_city "A") (smoothed one_row))
              (filter (stat_of_city "A")
                      (calculate_seasonal_statistics (smoothed one_row))) 5)
      with (@Ok bool false) in Hmain.
    cbn [bind] in Hmain. inversion Hmain as [E]. apply Hno. rewrite <- E.
    unfold shown. apply display_results_status. reflexivity.
Qed.

(** C3, amended.  After a successful fetch for a city of the store nothing
    raises: the row of the statistics table for the city's current season
    always exists and the results are shown.  When that group's standard
    deviation is undefined the test is false and the status shown is the
    anomalous one, never the normal one; the program has no third status. *)
Theorem undefined_baseline_reports_anomalous (loaded : DataFrame)
  (selectbox : list string -> string) (api_key : string)
  (requests_get : string -> Response) (t : R) :
  In (chosen_city loaded selectbox) (unique (map city (smoothed loaded))) ->
  api_key <> ""%string ->
  status_code (requests_get (weather_url (chosen_city loaded selectbox) api_key))
  = 200%nat ->
  main_temp (json (requests_get
                     (weather_url (chosen_city loaded selectbox) api_key)))
  = Some t ->
  exists r is_normal,
    latest_record (smoothed loaded) (chosen_city loaded selectbox) r
    /\ In (baseline (smoothed loaded) r)
          (calculate_seasonal_statistics (smoothed loaded))
    /\ main (Some loaded) selectbox api_key requests_get
       = Ok (shown loaded (chosen_city loaded selectbox) t is_normal)
    /\ (group_stddev (smoothed loaded) r = nan ->
        is_normal = false
        /\ In (st_write_status status_anomalous)
              (shown loaded (chosen_city loaded selectbox) t is_normal)
        /\ ~ In (st_write_status status_normal)
               (shown loaded (chosen_city loaded selectbox) t is_normal)).
Proof.
  intros Hc Hkey Hstatus Htemp. apply (proj1 (unique_In _ _)) in Hc.
  assert (Hne : loaded <> []).
  { intros ->. exact Hc. }
  destruct (@live_classification_eval (smoothed loaded)
              (chosen_city loaded selectbox) t Hc) as [r [Hlatest Heval]].
  exists r. eexists. split; [exact Hlatest|].
  split; [apply baseline_in_table; apply Hlatest|]. split.
  - rewrite (@main_fetch_ok loaded selectbox api_key requests_get t
               Hne Hkey Hstatus Htemp), Heval.
    reflexivity.
  - intros Hnan. rewrite Hnan.
    assert (Hfalse : leb (abs (sub (Some t) (group_mean (smoothed loaded) r)))
                         (mul (of_Z 2) nan) = false).
    { unfold leb, mul, lift2, nan.
      now destruct (abs (sub (Some t) (group_mean (smoothed loaded) r))). }
    split; [exact Hfalse|]. unfold shown. rewrite !display_results_status.
    rewrite Hfalse. split; [reflexivity|]. exact status_distinct.
Qed.

Lemma undefined_baseline_reports_anomalous_witness :
  exists r is_normal,
    latest_record (smoothed one_row) "A" r
    /\ In (baseline (smoothed one_row) r)
          (calculate_seasonal_statistics (smoothed one_row))
    /\ main (Some one_row) (fun _ => "A"%string) "key" five_degrees
       = Ok (shown one_row "A" 5 is_normal)
    /\ (group_stddev (smoothed one_row) r = nan ->
        is_normal = false
        /\ In (st_write_status status_anomalous)
              (shown one_row "A" 5 is_normal)
        /\ ~ In (st_write_status status_normal)
               (shown one_row "A" 5 is_normal)).
Proof.
  apply (@undefined_baseline_reports_anomalous one_row (fun _ => "A"%string)
           "key" five_degrees 5%R).
  - left. reflexivity.
  - discriminate.
  - reflexivity.
  - reflexivity.
Defined.


(** The store [month] has something to show: its statistics table holds a
    row whose mean and standard deviation are numbers. *)
Lemma month_table_populated :
  exists st m s,
    In st (calculate_seasonal_statistics (smoothed month))
    /\ stat_mean st = Some m /\ stat_std st = Some s.
Proof.
  eexists. eexists. eexists.
  split; [left; reflexivity|]. split; reflexivity.
Qed.







(** * Further properties of the program *)

(** ** Smoothing: what it keeps and where it leaves NaN *)

Lemma map_fst_combine_same {A B : Type} (l1 : list A) (l2 : list B) :
  List.length l2 = List.length l1 -> map fst (combine l1 l2) = l1.
Proof.
  revert l2. induction l1 as [|a l1 IH]; intros [|b l2] H; simpl in *;
    try reflexivity; try discriminate.
  f_equal. apply IH. lia.
Qed.

Lemma rolling_mean_length (W : nat) (xs : list float) :
  List.length (rolling_mean W xs) = List.length xs.
Proof.
  unfold rolling_mean. now rewrite length_map, length_seq.
Qed.

Lemma smooth_temperature_column {A : Type} (f : Row -> A) (data : DataFrame)
  (W : nat) :
  (forall r t, f (set_temperature r t) = f r) ->
  map f (smooth_temperature data W) = map f data.
Proof.
  intros Hf. unfold smooth_temperature.
  transitivity
    (map f (map fst (combine data (rolling_mean W (temperatures data))))).
  - rewrite !map_map. apply map_ext. intros [r t]. apply Hf.
  - f_equal. apply map_fst_combine_same.
    rewrite rolling_mean_length. unfold temperatures. apply length_map.
Qed.

Lemma group_keys_of_column (data : DataFrame) :
  group_keys data = fold_right insert_key [] (map row_key data).
Proof.
  induction data as [|r data IH]; simpl; [reflexivity|]. now rewrite <- IH.
Qed.

(** X1.  Smoothing overwrites the temperature column only: the store keeps its
    number of rows and, row by row, its timestamps, cities and seasons. *)
Theorem smooth_temperature_keeps_rows (data : DataFrame) (W : nat) :
  List.length (smooth_temperature data W) = List.length data
  /\ map timestamp (smooth_temperature data W) = map timestamp data
  /\ map city (smooth_temperature data W) = map city data
  /\ map season (smooth_temperature data W) = map season data
  /\ group_keys (smooth_temperature data W) = group_keys data.
Proof.
  split; [apply smooth_temperature_length|].
  split; [now apply smooth_temperature_column|].
  split; [now apply smooth_temperature_column|].
  split; [now apply smooth_temperature_column|].
  assert (Hk : map row_key (smooth_temperature data W) = map row_key data)
    by now apply smooth_temperature_column.
  now rewrite !group_keys_of_column, Hk.
Qed.

Lemma window_one (xs : list float) (i : nat) (x : float) :
  nth_error xs i = Some x -> window_at 1 i xs = [x].
Proof.
  unfold window_at. replace (S i - 1)%nat with i by lia.
  revert i. induction xs as [|a xs IH]; intros [|i] H; simpl in *;
    try discriminate.
  - now inversion H.
  - now apply IH.
Qed.

Lemma rolling_at_one (xs : list float) (i : nat) (x : float) :
  nth_error xs i = Some x -> rolling_at 1 i xs = x.
Proof.
  intros H. unfold rolling_at. rewrite (window_one _ _ H).
  destruct x as [v|]; simpl; [|reflexivity].
  unfold nan, arith_mean. simpl. f_equal. lra.
Qed.

Lemma rolling_mean_one (xs : list float) : rolling_mean 1 xs = xs.
Proof.
  apply nth_error_ext. intros i. rewrite rolling_mean_nth.
  destruct (Nat.ltb_spec i (List.length xs)) as [Hlt|Hge].
  - destruct (nth_error xs i) as [x|] eqn:E.
    + now rewrite (rolling_at_one _ _ E).
    + apply nth_error_None in E. lia.
  - symmetry. now apply nth_error_None.
Qed.

(** X2.  With a window of one row the rolling mean of a value is the value
    itself (and NaN stays NaN): smoothing returns the store unchanged. *)
Theorem smooth_temperature_window_one (data : DataFrame) :
  smooth_temperature data 1 = data.
Proof.
  unfold smooth_temperature. rewrite rolling_mean_one. unfold temperatures.
  induction data as [|r data IH]; simpl; [reflexivity|].
  rewrite IH. f_equal. now destruct r.
Qed.

Lemma dropna_missing (l : list float) :
  In nan l -> (List.length (dropna l) < List.length l)%nat.
Proof.
  induction l as [|[x|] l IH]; simpl; intros H.
  - destruct H.
  - destruct H as [H|H]; [discriminate|]. specialize (IH H). lia.
  - pose proof (dropna_length l). lia.
Qed.

Lemma window_at_length (W i : nat) (xs : list float) :
  (List.length (window_at W i xs) <= W)%nat.
Proof.
  unfold window_at. rewrite length_skipn, length_firstn. lia.
Qed.

Lemma window_at_In (W i j : nat) (xs : list float) (x : float) :
  (j <= i)%nat -> (i < j + W)%nat -> nth_error xs j = Some x ->
  In x (window_at W i xs).
Proof.
  intros Hji Hw Hj. unfold window_at.
  apply nth_error_In with (n := (j - (S i - W))%nat).
  rewrite nth_error_skipn, nth_error_firstn.
  replace (S i - W + (j - (S i - W)))%nat with j by lia.
  destruct (Nat.ltb_spec j (S i)); [exact Hj|lia].
Qed.

(** X3.  min_periods is the window: one missing raw temperature among the
    [W] rows ending at row [i] makes the smoothed value of row [i] NaN. *)
Theorem smooth_temperature_missing_raw (data : DataFrame) (W i j : nat)
  (r rj : Row) :
  nth_error (smooth_temperature data W) i = Some r ->
  (j <= i)%nat -> (i < j + W)%nat ->
  nth_error data j = Some rj ->
  temperature rj = nan ->
  temperature r = nan.
Proof.
  intros Hr Hji Hw Hj Hnan.
  destruct (smooth_temperature_nth data W i Hr) as [r0 [_ ->]]. simpl.
  unfold rolling_at.
  assert (Hin : In nan (window_at W i (temperatures data))).
  { apply window_at_In with j; try assumption.
    unfold temperatures. rewrite nth_error_map, Hj. simpl. now rewrite Hnan. }
  apply dropna_missing in Hin.
  pose proof (window_at_length W i (temperatures data)) as Hlen.
  destruct (Nat.leb_spec W
              (List.length (dropna (window_at W i (temperatures data)))));
    [lia|reflexivity].
Qed.

Lemma smooth_temperature_missing_raw_witness :
  temperature (set_temperature (winter 3 "A" 4) nan) = nan.
Proof.
  apply (@smooth_temperature_missing_raw gap 2 2 1
           (set_temperature (winter 3 "A" 4) nan)
           (set_temperature (winter 2 "A" 0) nan)).
  - reflexivity.
  - lia.
  - lia.
  - reflexivity.
  - reflexivity.
Defined.

(** ** The analysis of a store shorter than the window *)

Lemma concat_all_nil {A : Type} (ls : list (list A)) :
  (forall l, In l ls -> l = []) -> List.concat ls = [].
Proof.
  induction ls as [|l ls IH]; intros H; simpl; [reflexivity|].
  rewrite (H l) by (simpl; auto). apply IH. intros l' Hl'. apply H.
  simpl. auto.
Qed.

Lemma dropna_all_nan (l : DataFrame) :
  (forall r, In r l -> temperature r = nan) -> dropna (temperatures l) = [].
Proof.
  induction l as [|r l IH]; intros H; simpl; [reflexivity|].
  rewrite (H r) by (simpl; auto). apply IH. intros r' Hr'. apply H.
  simpl. auto.
Qed.

Lemma short_store_all_nan (loaded : DataFrame) (r : Row) :
  (List.length loaded < default_window)%nat ->
  In r (smoothed loaded) -> temperature r = nan.
Proof.
  intros Hlen Hr. apply In_nth_error in Hr. destruct Hr as [i Hi].
  assert (Hlt : (i < List.length (smoothed loaded))%nat).
  { apply nth_error_Some. congruence. }
  unfold smoothed in *. rewrite smooth_temperature_length in Hlt.
  destruct (smooth_temperature_nth loaded default_window i Hi) as [r0 [_ ->]].
  simpl. apply rolling_at_short. lia.
Qed.

(** X5.  A non-empty store with fewer rows than the window of 30 goes through
    the analysis without an error, but with nothing in it: every smoothed
    temperature is NaN, every mean and standard deviation of the
    statistics table is NaN, and no record is flagged. *)
Theorem analysis_of_short_store (loaded : DataFrame) :
  loaded <> [] ->
  (List.length loaded < 30)%nat ->
  analyze_temperature_data loaded
  = Ok (smoothed loaded, calculate_seasonal_statistics (smoothed loaded), [])
  /\ (forall r, In r (smoothed loaded) -> temperature r = nan)
  /\ (forall st, In st (calculate_seasonal_statistics (smoothed loaded)) ->
                 stat_mean st = nan /\ stat_std st = nan).
Proof.
  intros Hne Hlen.
  assert (Hnan : forall r, In r (smoothed loaded) -> temperature r = nan).
  { intros r. now apply short_store_all_nan. }
  split; [|split; [exact Hnan|]].
  - rewrite (analyze_temperature_data_Ok Hne). do 2 f_equal.
    unfold anomalies_by_group. apply concat_all_nil.
    intros g Hg. apply in_map_iff in Hg. destruct Hg as [k [<- _]].
    unfold group_anomalies. apply filter_none. intros r Hr.
    apply anomaly_condition_nan_temperature. apply Hnan.
    apply filter_In in Hr. tauto.
  - intros st Hst. rewrite calculate_seasonal_statistics_keys in Hst.
    apply in_map_iff in Hst. destruct Hst as [k [<- _]].
    unfold mk_stat, series_mean, series_std. simpl.
    rewrite dropna_all_nan; [split; reflexivity|].
    intros r Hr. apply Hnan. apply filter_In in Hr. tauto.
Qed.

Lemma analysis_of_short_store_witness :
  analyze_temperature_data two_rows
  = Ok (smoothed two_rows, calculate_seasonal_statistics (smoothed two_rows), [])
  /\ (forall r, In r (smoothed two_rows) -> temperature r = nan)
  /\ (forall st, In st (calculate_seasonal_statistics (smoothed two_rows)) ->
                 stat_mean st = nan /\ stat_std st = nan).
Proof.
  apply (@analysis_of_short_store two_rows).
  - discriminate.
  - simpl. lia.
Defined.

(** ** The statistics table *)

Lemma StronglySorted_lt_NoDup (ks : list key) :
  StronglySorted key_lt ks -> NoDup ks.
Proof.
  induction 1 as [|k ks Hs IH Hall]; constructor; [|exact IH].
  rewrite Forall_forall in Hall. intros Hin.
  exact (key_lt_irrefl (Hall _ Hin)).
Qed.

Lemma stat_keys_of_table (data : DataFrame) :
  map stat_key (calculate_seasonal_statistics data) = group_keys data.
Proof.
  rewrite calculate_seasonal_statistics_keys, map_map.
  rewrite <- (map_id (group_keys data)) at 2.
  apply map_ext. intros [c s]. reflexivity.
Qed.

(** X6.  The statistics table has one row per (city, season) pair that occurs
    in the store and no other row; its rows come in strictly ascending
    (city, season) order, so no pair appears twice. *)
Theorem statistics_table_keys (data : DataFrame) :
  StronglySorted key_lt (map stat_key (calculate_seasonal_statistics data))
  /\ NoDup (map stat_key (calculate_seasonal_statistics data))
  /\ (forall c s,
        In (c, s) (map stat_key (calculate_seasonal_statistics data))
        <-> exists r, In r data /\ city r = c /\ season r = s)
  /\ (List.length (calculate_seasonal_statistics data) <= List.length data)%nat.
Proof.
  rewrite stat_keys_of_table.
  split; [apply group_keys_sorted|].
  split; [apply StronglySorted_lt_NoDup, group_keys_sorted|]. split.
  - intros c s. rewrite group_keys_In. split.
    + intros [r [Hr Hk]]. inversion Hk. eauto.
    + intros [r [Hr [Hc Hs]]]. exists r. split; [exact Hr|].
      unfold row_key. now rewrite Hc, Hs.
  - rewrite <- (length_map stat_key), stat_keys_of_table.
    rewrite <- (length_map row_key data).
    apply NoDup_incl_length.
    + apply StronglySorted_lt_NoDup, group_keys_sorted.
    + intros k Hk. apply group_keys_In in Hk. destruct Hk as [r [Hr <-]].
      now apply in_map.
Qed.

Lemma dropna_count (l : DataFrame) :
  List.length (dropna (temperatures l)) = present_count l.
Proof.
  unfold present_count, temperatures.
  induction l as [|r l IH]; [reflexivity|].
  cbn [map dropna filter]. unfold has_temperature at 1.
  destruct (temperature r); simpl; now rewrite IH.
Qed.

Lemma series_mean_nan_iff (l : DataFrame) :
  series_mean (temperatures l) = nan <-> present_count l = 0%nat.
Proof.
  rewrite <- dropna_count. unfold series_mean, nan.
  destruct (dropna (temperatures l)); simpl; split; intros H;
    try reflexivity; discriminate.
Qed.

Lemma series_std_nan_iff (l : DataFrame) :
  series_std (temperatures l) = nan <-> (present_count l < 2)%nat.
Proof.
  rewrite <- dropna_count. unfold series_std, nan.
  destruct (Nat.leb_spec (List.length (dropna (temperatures l))) 1); split;
    intros H'; try reflexivity; try discriminate; lia.
Qed.

Lemma series_std_nonneg (xs : list float) (s : R) :
  series_std xs = Some s -> (0 <= s)%R.
Proof.
  unfold series_std.
  destruct (List.length (dropna xs) <=? 1)%nat; [discriminate|].
  intros H. inversion H. apply sqrt_pos.
Qed.

(** X7.  When a row of the statistics table is NaN: its group is never empty;
    the mean is NaN exactly when no record of the group carries a
    temperature, the standard deviation exactly when fewer than two do;
    a standard deviation that is a number is not negative. *)
Theorem statistics_table_nan (data : DataFrame) (st : SeasonalStat) :
  In st (calculate_seasonal_statistics data) ->
  filter (in_group (stat_key st)) data <> []
  /\ (stat_mean st = nan
      <-> present_count (filter (in_group (stat_key st)) data) = 0%nat)
  /\ (stat_std st = nan
      <-> (present_count (filter (in_group (stat_key st)) data) < 2)%nat)
  /\ (forall s, stat_std st = Some s -> (0 <= s)%R).
Proof.
  intros Hst. rewrite calculate_seasonal_statistics_keys in Hst.
  apply in_map_iff in Hst. destruct Hst as [[c s] [<- Hk]].
  unfold stat_key. cbn [mk_stat stat_city stat_season stat_mean stat_std fst snd].
  split; [|split; [apply series_mean_nan_iff|split;
                    [apply series_std_nan_iff|apply series_std_nonneg]]].
  apply group_keys_In in Hk. destruct Hk as [r [Hr Hkey]].
  intros E.
  assert (Hin : In r (filter (in_group (c, s)) data)).
  { apply filter_In. split; [exact Hr|]. now apply in_group_iff. }
  rewrite E in Hin. exact Hin.
Qed.

Lemma statistics_table_nan_witness :
  filter (in_group (stat_key (mk_stat two_rows ("A", "winter")%string)))
         two_rows <> []
  /\ (stat_mean (mk_stat two_rows ("A", "winter")%string) = nan
      <-> present_count
            (filter (in_group (stat_key (mk_stat two_rows ("A", "winter")%string)))
                    two_rows) = 0%nat)
  /\ (stat_std (mk_stat two_rows ("A", "winter")%string) = nan
      <-> (present_count
             (filter (in_group (stat_key (mk_stat two_rows ("A", "winter")%string)))
                     two_rows) < 2)%nat)
  /\ (forall s, stat_std (mk_stat two_rows ("A", "winter")%string) = Some s ->
                (0 <= s)%R).
Proof.
  apply (@statistics_table_nan two_rows (mk_stat two_rows ("A", "winter")%string)).
  left. reflexivity.
Defined.

(** ** The detector: nothing lost, nothing invented, no small group *)

Lemma concat_groups_cons (a : Row) (l : DataFrame) (ks : list key) :
  NoDup ks -> In (row_key a) ks ->
  Permutation
    (List.concat (map (fun k => filter (in_group k) (a :: l)) ks))
    (a :: List.concat (map (fun k => filter (in_group k) l) ks)).
Proof.
  induction 1 as [|k0 ks Hnot Hnd IH]; intros Hin; [destruct Hin|].
  cbn [map List.concat].
  change (filter (in_group k0) (a :: l))
    with (if in_group k0 a then a :: filter (in_group k0) l
          else filter (in_group k0) l).
  destruct (in_group k0 a) eqn:E.
  - apply in_group_iff in E. subst k0.
    assert (Ht : map (fun k => filter (in_group k) (a :: l)) ks
                 = map (fun k => filter (in_group k) l) ks).
    { apply map_ext_in. intros k Hk. cbn [filter].
      destruct (in_group k a) eqn:E'; [|reflexivity].
      apply in_group_iff in E'. subst k. contradiction. }
    rewrite Ht. reflexivity.
  - destruct Hin as [->|Hin].
    + rewrite (proj2 (in_group_iff (row_key a) a) eq_refl) in E. discriminate.
    + eapply Permutation_trans.
      * apply Permutation_app_head. apply IH. exact Hin.
      * apply Permutation_sym, Permutation_middle.
Qed.

Lemma concat_groups_permutation (l : DataFrame) (ks : list key) :
  NoDup ks -> (forall r, In r l -> In (row_key r) ks) ->
  Permutation (List.concat (map (fun k => filter (in_group k) l) ks)) l.
Proof.
  intros Hnd. induction l as [|a l IH]; intros Hin.
  - rewrite concat_all_nil; [constructor|].
    intros g Hg. apply in_map_iff in Hg. now destruct Hg as [k [<- _]].
  - eapply Permutation_trans.
    + apply concat_groups_cons; [exact Hnd|]. apply Hin. simpl. auto.
    + constructor. apply IH. intros r Hr. apply Hin. simpl. auto.
Qed.

(** X8.  The detector's output is a rearrangement of the records of the store
    that pass the two-sigma test of their own group: no flagged record is
    lost, none is repeated, and every record of the output is a record of
    the store, unchanged. *)
Theorem anomalies_permutation (data out : DataFrame) :
  find_anomalies data = Ok out ->
  Permutation out (filter (flagged data) data)
  /\ (forall r, In r out -> In r data)
  /\ (List.length out <= List.length data)%nat.
Proof.
  intros Hout. apply find_anomalies_Ok in Hout. subst out.
  assert (Hperm : Permutation (anomalies_by_group data)
                              (filter (flagged data) data)).
  { rewrite anomalies_by_group_flagged.
    replace (map (fun k => filter (flagged data) (filter (in_group k) data))
                 (group_keys data))
      with (map (fun k => filter (in_group k) (filter (flagged data) data))
                (group_keys data))
      by (apply map_ext; intros k; apply filter_filter_comm).
    apply concat_groups_permutation.
    - apply StronglySorted_lt_NoDup, group_keys_sorted.
    - intros r Hr. apply filter_In in Hr. apply group_keys_In.
      exists r. tauto. }
  split; [exact Hperm|]. split.
  - intros r Hr. apply anomalies_by_group_In in Hr. tauto.
  - rewrite (Permutation_length Hperm). apply filter_length_le.
Qed.

Lemma anomalies_permutation_witness :
  Permutation (anomalies_by_group two_rows) (filter (flagged two_rows) two_rows)
  /\ (forall r, In r (anomalies_by_group two_rows) -> In r two_rows)
  /\ (List.length (anomalies_by_group two_rows) <= List.length two_rows)%nat.
Proof.
  apply (@anomalies_permutation two_rows (anomalies_by_group two_rows)).
  reflexivity.
Defined.

Lemma Rsum_squares_nonneg (m : R) (v : list R) :
  (0 <= Rsum (map (fun x => (x - m) * (x - m)) v))%R.
Proof.
  unfold Rsum. induction v as [|y v IH]; simpl; [lra|].
  pose proof (Rle_0_sqr (y - m)) as Hy. unfold Rsqr in Hy. lra.
Qed.

Lemma Rsum_squares_term (m x : R) (v : list R) :
  In x v -> ((x - m) * (x - m) <= Rsum (map (fun x => (x - m) * (x - m)) v))%R.
Proof.
  pose proof (Rsum_squares_nonneg m) as Hpos. unfold Rsum in *.
  induction v as [|y v IH]; simpl; intros H; [destruct H|].
  specialize (Hpos v).
  pose proof (Rle_0_sqr (y - m)) as Hy. unfold Rsqr in Hy.
  destruct H as [->|H]; [lra|]. specialize (IH H). lra.
Qed.

Lemma dropna_In (xs : list float) (x : R) : In (Some x) xs -> In x (dropna xs).
Proof.
  induction xs as [|[y|] xs IH]; simpl; intros H.
  - exact H.
  - destruct H as [H|H]; [inversion H; auto|auto].
  - destruct H as [H|H]; [discriminate|auto].
Qed.

(** Two standard deviations (divisor n - 1) of at most five values reach
    every one of them. *)
Lemma two_sigma_covers_five (xs : list float) (r : Row) :
  In (temperature r) xs ->
  anomaly_condition (series_mean xs) (series_std xs) r = true ->
  (6 <= List.length (dropna xs))%nat.
Proof.
  intros Hin Hflag.
  destruct (series_std xs) as [s|] eqn:Es;
    [|now rewrite anomaly_condition_nan_std in Hflag].
  pose proof (series_std_defined _ Es) as Hn2.
  unfold series_std in Es. unfold series_mean in Hflag.
  destruct (dropna xs) as [|v0 v] eqn:Ev; [simpl in Hn2; lia|].
  rewrite <- Ev in *.
  destruct (List.length (dropna xs) <=? 1)%nat; [discriminate|].
  inversion Es as [Hs]. clear Es.
  set (m := arith_mean (dropna xs)) in *.
  set (S2 := Rsum (map (fun x => ((x - m) * (x - m))%R) (dropna xs))) in *.
  set (d := (INR (List.length (dropna xs)) - 1)%R) in *.
  apply anomaly_condition_spec in Hflag. destruct Hflag as [x [Hx Habs]].
  rewrite Hx in Hin. apply dropna_In in Hin.
  destruct (le_lt_dec 6 (List.length (dropna xs))) as [H6|H5]; [exact H6|].
  exfalso.
  assert (Hd1 : (1 <= d)%R).
  { unfold d. apply le_INR in Hn2. simpl in Hn2. lra. }
  assert (Hd4 : (d <= 4)%R).
  { unfold d. assert (H : (List.length (dropna xs) <= 5)%nat) by lia.
    apply le_INR in H. simpl in H. lra. }
  assert (HS : (0 <= S2)%R) by apply Rsum_squares_nonneg.
  assert (Hx2 : ((x - m) * (x - m) <= S2)%R) by now apply Rsum_squares_term.
  assert (Hq : (0 <= S2 / d)%R).
  { apply Rmult_le_pos; [exact HS|]. left. apply Rinv_0_lt_compat. lra. }
  assert (Hqd : (S2 / d * d = S2)%R) by (field; lra).
  pose proof (sqrt_sqrt _ Hq) as Hsq. pose proof (sqrt_pos (S2 / d)) as Hpos.
  rewrite Hs in Hsq, Hpos.
  assert (H4 : ((x - m) * (x - m) <= 4 * (s * s))%R) by nra.
  unfold Rabs in Habs. destruct (Rcase_abs (x - m)); nra.
Qed.

(** X9.  No record of a (city, season) group in which fewer than six records
    carry a temperature is ever flagged: a flagged record always belongs to
    a group with at least six present values. *)
Theorem flagged_group_has_six (data out : DataFrame) (r : Row) :
  find_anomalies data = Ok out ->
  In r out ->
  (6 <= present_count (group_of data r))%nat.
Proof.
  intros Hout Hr. apply find_anomalies_Ok in Hout. subst out.
  apply anomalies_by_group_In in Hr. destruct Hr as [Hr Hflag].
  rewrite <- dropna_count.
  apply two_sigma_covers_five with r; [|exact Hflag].
  unfold temperatures. apply in_map. unfold group_of. apply filter_In.
  split; [exact Hr|]. now apply in_group_iff.
Qed.

Lemma flagged_group_has_six_witness :
  (6 <= present_count (group_of shuffled (winter 12 "A" 6)))%nat.
Proof.
  apply (@flagged_group_has_six shuffled
           [ winter 12 "A" 6; winter 6 "B" 6 ] (winter 12 "A" 6)).
  - exact shuffled_anomalies.
  - left. reflexivity.
Defined.

(** ** Restricting to one city, before or after the analysis *)

Lemma sorted_keys_unique (l1 l2 : list key) :
  StronglySorted key_lt l1 -> StronglySorted key_lt l2 ->
  (forall k, In k l1 <-> In k l2) -> l1 = l2.
Proof.
  intros H1. revert l2. induction H1 as [|a l1 Hs1 IH Hall1];
    intros l2 H2 Hiff.
  - destruct l2 as [|b l2]; [reflexivity|].
    exfalso. apply (proj2 (Hiff b)). simpl. auto.
  - destruct H2 as [|b l2 Hs2 Hall2].
    + exfalso. apply (proj1 (Hiff a)). simpl. auto.
    + rewrite Forall_forall in Hall1, Hall2.
      assert (Hab : a = b).
      { destruct (proj1 (Hiff a) (or_introl eq_refl)) as [Hb|Hb]; [auto|].
        destruct (proj2 (Hiff b) (or_introl eq_refl)) as [Ha|Ha]; [auto|].
        exfalso. apply (@key_lt_irrefl a).
        apply key_lt_trans with b; auto. }
      subst b. f_equal. apply IH; [exact Hs2|].
      intros k. split; intros Hk.
      * destruct (proj1 (Hiff k) (or_intror Hk)) as [->|Hk']; [|exact Hk'].
        exfalso. exact (key_lt_irrefl (Hall1 _ Hk)).
      * destruct (proj2 (Hiff k) (or_intror Hk)) as [->|Hk']; [|exact Hk'].
        exfalso. exact (key_lt_irrefl (Hall2 _ Hk)).
Qed.

Lemma filter_strongly_sorted (f : key -> bool) (l : list key) :
  StronglySorted key_lt l -> StronglySorted key_lt (filter f l).
Proof.
  induction 1 as [|a l Hs IH Hall]; simpl; [constructor|].
  destruct (f a); [|exact IH]. constructor; [exact IH|].
  rewrite Forall_forall in *. intros k Hk. apply Hall.
  apply filter_In in Hk. tauto.
Qed.

Lemma group_keys_of_city (data : DataFrame) (c : string) :
  group_keys (filter (same_city c) data)
  = filter (key_of_city c) (group_keys data).
Proof.
  apply sorted_keys_unique.
  - apply group_keys_sorted.
  - apply filter_strongly_sorted, group_keys_sorted.
  - intros k. rewrite filter_In, !group_keys_In. unfold key_of_city. split.
    + intros [r [Hr Hk]]. apply filter_In in Hr. destruct Hr as [Hr Hc].
      split; [now exists r|]. now subst k.
    + intros [[r [Hr Hk]] Hc]. exists r. split; [|exact Hk].
      apply filter_In. split; [exact Hr|]. now subst k.
Qed.

Lemma group_within_city (data : DataFrame) (c : string) (k : key) :
  key_of_city c k = true ->
  filter (in_group k) (filter (same_city c) data) = filter (in_group k) data.
Proof.
  intros Hk. induction data as [|r data IH]; [reflexivity|].
  cbn [filter]. destruct (same_city c r) eqn:Ec.
  - cbn [filter]. now rewrite IH.
  - rewrite IH. destruct (in_group k r) eqn:Eg; [|reflexivity].
    apply in_group_iff in Eg. subst k.
    unfold key_of_city, same_city, row_key in *. simpl in Hk. congruence.
Qed.

(** X10.  Restricting the store to one city and then computing the statistics
    gives the rows of that city in the table of the whole store. *)
Theorem statistics_commute_with_city (data : DataFrame) (c : string) :
  calculate_seasonal_statistics (filter (same_city c) data)
  = filter (stat_of_city c) (calculate_seasonal_statistics data).
Proof.
  rewrite !calculate_seasonal_statistics_keys, group_keys_of_city.
  induction (group_keys data) as [|k ks IH]; [reflexivity|].
  cbn [filter map]. unfold stat_of_city at 1. cbn [mk_stat stat_city].
  fold (key_of_city c k). destruct (key_of_city c k) eqn:Ek.
  - cbn [map]. rewrite IH. f_equal.
    unfold mk_stat. now rewrite (group_within_city data c k Ek).
  - exact IH.
Qed.

Lemma anomalies_of_city (data : DataFrame) (c : string) :
  anomalies_by_group (filter (same_city c) data)
  = filter (same_city c) (anomalies_by_group data).
Proof.
  unfold anomalies_by_group. rewrite group_keys_of_city.
  induction (group_keys data) as [|k ks IH]; [reflexivity|].
  cbn [filter map List.concat]. rewrite filter_app, <- IH.
  destruct (key_of_city c k) eqn:Ek.
  - cbn [map List.concat]. f_equal.
    rewrite (group_within_city data c k Ek). symmetry. apply filter_all.
    intros r Hr. unfold group_anomalies in Hr.
    apply filter_In in Hr. destruct Hr as [Hr _].
    apply filter_In in Hr. destruct Hr as [_ Hr].
    apply in_group_iff in Hr. subst k.
    unfold key_of_city, same_city, row_key in *. exact Ek.
  - rewrite (filter_none (same_city c)
               (group_anomalies (filter (in_group k) data))); [reflexivity|].
    intros r Hr. apply not_true_is_false. intros Hcr.
    unfold group_anomalies in Hr.
    apply filter_In in Hr. destruct Hr as [Hr _].
    apply filter_In in Hr. destruct Hr as [_ Hr].
    apply in_group_iff in Hr. subst k.
    unfold key_of_city, same_city, row_key in *. simpl in Ek. congruence.
Qed.

(** X11.  Detection and restriction to a city of the store commute: the flagged
    records of one city are the same, and in the same order, whether the
    detector runs on the whole store or on that city's records alone. *)
Theorem detection_commutes_with_city (data out : DataFrame) (c : string) :
  find_anomalies data = Ok out ->
  In c (map city data) ->
  find_anomalies (filter (same_city c) data) = Ok (filter (same_city c) out).
Proof.
  intros Hout Hc. apply find_anomalies_Ok in Hout. subst out.
  rewrite find_anomalies_unfold, anomalies_of_city.
  destruct (filter (same_city c) data) as [|r0 l] eqn:E; [|reflexivity].
  exfalso. apply in_map_iff in Hc. destruct Hc as [r [Hcr Hr]].
  assert (Hin : In r (filter (same_city c) data)).
  { apply filter_In. split; [exact Hr|]. unfold same_city.
    now apply String.eqb_eq. }
  rewrite E in Hin. exact Hin.
Qed.

Lemma detection_commutes_with_city_witness :
  find_anomalies (filter (same_city "A") shuffled)
  = Ok (filter (same_city "A") [ winter 12 "A" 6; winter 6 "B" 6 ]).
Proof.
  apply (@detection_commutes_with_city shuffled
           [ winter 12 "A" 6; winter 6 "B" 6 ] "A").
  - exact shuffled_anomalies.
  - simpl. do 6 right. left. reflexivity.
Defined.

(** ** The live classification: failures and ties *)

Lemma values0_raises {A : Type} (l : list A) (e : exn) :
  values0 l = Raise e -> e = IndexError.
Proof.
  destruct l; simpl; intros H; [now inversion H|discriminate].
Qed.

(** X12.  The lookups of lines 109-111 can fail in one way only, with an
    IndexError, and they do so on a frame without records and on a
    statistics table without a row for the current season. *)
Theorem live_classification_errors (data : DataFrame)
  (stats : list SeasonalStat) (t : R) :
  (forall e, live_classification data stats t = Raise e -> e = IndexError)
  /\ (data = [] -> live_classification data stats t = Raise IndexError)
  /\ ((forall st r, In st stats -> In r data -> stat_season st <> season r) ->
      live_classification data stats t = Raise IndexError).
Proof.
  unfold live_classification.
  set (rows := filter (fun r => match series_max (map timestamp data) with
                                | Some m => (timestamp r =? m)%Z
                                | None => false
                                end) data).
  split; [|split].
  - intros e. destruct (values0 (map season rows)) as [cs|e1] eqn:E1;
      cbn [bind]; [|intros H; inversion H; subst; now apply values0_raises in E1].
    set (of_season := filter (fun s => String.eqb (stat_season s) cs) stats).
    destruct (values0 (map stat_mean of_season)) as [m|e2] eqn:E2;
      cbn [bind]; [|intros H; inversion H; subst; now apply values0_raises in E2].
    destruct (values0 (map stat_std of_season)) as [s|e3] eqn:E3;
      cbn [bind]; [discriminate|].
    intros H; inversion H; subst; now apply values0_raises in E3.
  - intros ->. reflexivity.
  - intros Hno. destruct rows as [|r rest] eqn:Er; [reflexivity|].
    cbn [map values0 bind].
    assert (Hr : In r data).
    { assert (Hin : In r rows) by (rewrite Er; simpl; auto).
      unfold rows in Hin. apply filter_In in Hin. tauto. }
    rewrite filter_none; [reflexivity|].
    intros st Hst. apply String.eqb_neq. now apply Hno.
Qed.

Lemma live_classification_errors_witness :
  live_classification one_row [] 5 = Raise IndexError.
Proof.
  apply (proj2 (proj2 (@live_classification_errors one_row [] 5%R))).
  intros st r [].
Defined.

Lemma filter_head_split {A : Type} (p : A -> bool) (l : list A) (y : A)
  (rest : list A) :
  filter p l = y :: rest ->
  exists pre post,
    l = pre ++ y :: post /\ (forall x, In x pre -> p x = false) /\ p y = true.
Proof.
  induction l as [|a l IH]; simpl; [discriminate|].
  destruct (p a) eqn:E.
  - intros H. inversion H. subst a. exists [], l. simpl.
    split; [reflexivity|]. split; [tauto|exact E].
  - intros H. destruct (IH H) as [pre [post [-> [Hpre Hy]]]].
    exists (a :: pre), post. simpl. split; [reflexivity|]. split; [|exact Hy].
    intros x [<-|Hx]; auto.
Qed.

(** X13.  When several records of the city carry the latest timestamp, the
    season used is that of the first of them in store order: every record
    of the city before it is strictly older, none after it is newer. *)
Theorem current_season_first_latest (data : DataFrame) (c : string) (t : R) :
  In c (map city data) ->
  exists pre r post,
    filter (same_city c) data = pre ++ r :: post
    /\ (forall r', In r' pre -> (timestamp r' < timestamp r)%Z)
    /\ (forall r', In r' post -> (timestamp r' <= timestamp r)%Z)
    /\ live_classification (filter (same_city c) data)
         (filter (stat_of_city c) (calculate_seasonal_statistics data)) t
       = Ok (leb (abs (sub (Some t) (group_mean data r)))
                 (mul (of_Z 2) (group_stddev data r))).
Proof.
  intros Hc. apply in_map_iff in Hc. destruct Hc as [r0 [Hc0 Hr0]].
  set (data_c := filter (same_city c) data).
  assert (Hin0 : In r0 data_c).
  { apply filter_In. split; [exact Hr0|]. unfold same_city.
    now apply String.eqb_eq. }
  destruct (series_max_spec (l := map timestamp data_c)) as [m [Hm [Hmin Hmax]]].
  { intros E. apply (in_map timestamp) in Hin0. rewrite E in Hin0. exact Hin0. }
  apply in_map_iff in Hmin. destruct Hmin as [r1 [Ht1 Hr1]].
  destruct (filter_head (fun r => (timestamp r =? m)%Z) data_c)
    as [r [rest [Hf [Hr Htr]]]].
  { exists r1. split; [exact Hr1|]. now apply Z.eqb_eq. }
  destruct (filter_head_split _ _ Hf) as [pre [post [Hsplit [Hpre _]]]].
  apply Z.eqb_eq in Htr.
  assert (Hle : forall r', In r' data_c -> (timestamp r' <= m)%Z).
  { intros r' Hr'. apply Hmax. now apply in_map. }
  apply filter_In in Hr. destruct Hr as [Hr Hcr].
  unfold same_city in Hcr. apply String.eqb_eq in Hcr.
  exists pre, r, post. split; [exact Hsplit|]. split; [|split].
  - intros r' Hr'. specialize (Hpre r' Hr'). apply Z.eqb_neq in Hpre.
    assert (Hin : In r' data_c) by (rewrite Hsplit; apply in_or_app; auto).
    specialize (Hle r' Hin). lia.
  - intros r' Hr'. rewrite Htr. apply Hle. rewrite Hsplit.
    apply in_or_app. right. simpl. auto.
  - unfold live_classification. fold data_c. rewrite Hm, Hf.
    cbn [map values0 bind]. rewrite stats_lookup.
    + cbn [map values0 bind mk_stat stat_mean stat_std].
      unfold group_mean, group_stddev, group_of, row_key. now rewrite Hcr.
    + apply group_keys_In. exists r. split; [exact Hr|].
      unfold row_key. now rewrite Hcr.
Qed.

Lemma current_season_first_latest_witness :
  exists pre r post,
    filter (same_city "A") tied = pre ++ r :: post
    /\ (forall r', In r' pre -> (timestamp r' < timestamp r)%Z)
    /\ (forall r', In r' post -> (timestamp r' <= timestamp r)%Z)
    /\ live_classification (filter (same_city "A") tied)
         (filter (stat_of_city "A") (calculate_seasonal_statistics tied)) 5
       = Ok (leb (abs (sub (Some 5%R) (group_mean tied r)))
                 (mul (of_Z 2) (group_stddev tied r))).
Proof.
  apply (@current_season_first_latest tied "A" 5%R).
  simpl. left. reflexivity.
Defined.

(** ** The application: how it can fail and what it shows *)

Lemma main_empty_store (selectbox : list string -> string) (api_key : string)
  (requests_get : string -> Response) :
  main (Some []) selectbox api_key requests_get = Raise ValueError.
Proof. reflexivity. Qed.

(** X14.  Inputs on which [main] fails, and how.  An uploaded file
    without records fails with the ValueError of the detector, whatever the
    key and the provider.  With records and a key: a 200 answer without a
    temperature fails with KeyError; a 200 answer whose temperature is null
    makes [get_current_temperature] return neither a temperature nor an
    error body, and [main] fails with TypeError on reading the message; an
    answer with another status and no message fails with KeyError. *)
Theorem main_failure_cases (loaded : DataFrame)
  (selectbox : list string -> string) (api_key : string)
  (requests_get : string -> Response) :
  main (Some []) selectbox api_key requests_get = Raise ValueError
  /\ (loaded <> [] -> api_key <> ""%string ->
      status_code (requests_get
                     (weather_url (chosen_city loaded selectbox) api_key))
      = 200%nat ->
      temp (json (requests_get
                    (weather_url (chosen_city loaded selectbox) api_key)))
      = TempAbsent ->
      main (Some loaded) selectbox api_key requests_get = Raise KeyError)
  /\ (loaded <> [] -> api_key <> ""%string ->
      status_code (requests_get
                     (weather_url (chosen_city loaded selectbox) api_key))
      = 200%nat ->
      temp (json (requests_get
                    (weather_url (chosen_city loaded selectbox) api_key)))
      = TempNull ->
      get_current_temperature requests_get (chosen_city loaded selectbox)
        api_key = Ok (None, None)
      /\ main (Some loaded) selectbox api_key requests_get = Raise TypeError)
  /\ (loaded <> [] -> api_key <> ""%string ->
      status_code (requests_get
                     (weather_url (chosen_city loaded selectbox) api_key))
      <> 200%nat ->
      message (json (requests_get
                       (weather_url (chosen_city loaded selectbox) api_key)))
      = None ->
      main (Some loaded) selectbox api_key requests_get = Raise KeyError).
Proof.
  split; [apply main_empty_store|]. split; [|split].
  - intros Hne Hkey H200 Ht. unfold main.
    rewrite (analyze_temperature_data_Ok Hne). cbn [bind fst snd].
    rewrite (api_key_given Hkey). fold (chosen_city loaded selectbox).
    unfold get_current_temperature. rewrite H200, Ht. reflexivity.
  - intros Hne Hkey H200 Ht. split.
    + unfold get_current_temperature. rewrite H200, Ht. reflexivity.
    + unfold main.
      rewrite (analyze_temperature_data_Ok Hne). cbn [bind fst snd].
      rewrite (api_key_given Hkey). fold (chosen_city loaded selectbox).
      unfold get_current_temperature. rewrite H200, Ht. reflexivity.
  - intros Hne Hkey Hnot Hmsg. unfold main.
    rewrite (analyze_temperature_data_Ok Hne). cbn [bind fst snd].
    rewrite (api_key_given Hkey). fold (chosen_city loaded selectbox).
    unfold get_current_temperature.
    apply Nat.eqb_neq in Hnot. rewrite Hnot. cbn [bind fst snd].
    now rewrite Hmsg.
Qed.

Lemma main_failure_cases_witness :
  get_current_temperature null_temperature "A" "key" = Ok (None, None)
  /\ main (Some one_row) (fun _ => "A"%string) "key" null_temperature
     = Raise TypeError.
Proof.
  apply (proj1 (proj2 (proj2 (@main_failure_cases one_row
                                (fun _ => "A"%string) "key" null_temperature)))).
  - discriminate.
  - discriminate.
  - reflexivity.
  - reflexivity.
Defined.

(** X16.  The tables of the analysis are part of the page only together with a
    live reading: whenever [main] shows the descriptive statistics, a key
    was typed, the current temperature and one of the two statuses are
    shown too, and no error is.  After a failed fetch, or without a key,
    nothing of the analysis is shown. *)
Theorem tables_need_live_reading (uploaded_file : option DataFrame)
  (selectbox : list string -> string) (api_key : string)
  (requests_get : string -> Response) (events : list st_event)
  (d : DataFrame) :
  main uploaded_file selectbox api_key requests_get = Ok events ->
  In (st_write_describe d) events ->
  api_key <> ""%string
  /\ (exists t, In (st_write_current t) events)
  /\ (In (st_write_status status_normal) events
      \/ In (st_write_status status_anomalous) events)
  /\ (forall msg, ~ In (st_error msg) events).
Proof.
  unfold main. destruct uploaded_file as [loaded|].
  - destruct (analyze_temperature_data loaded) as [[[d0 st] a]|e0];
      cbn [bind fst snd]; [|discriminate].
    destruct (String.eqb api_key "") eqn:Ekey.
    + intros H. inversion H. simpl. intros [F|[]]. discriminate F.
    + apply String.eqb_neq in Ekey.
      destruct (get_current_temperature requests_get
                  (selectbox (unique (map city d0))) api_key)
        as [[[t|] body]|e1]; cbn [bind fst snd]; [| |discriminate].
      * destruct (live_classification _ _ t) as [b|e2]; cbn [bind];
          [|discriminate].
        intros H _. inversion H. split; [exact Ekey|].
        unfold page_title, display_results. simpl. split; [|split].
        -- exists t. do 9 right. left. reflexivity.
        -- destruct b; [left|right]; do 10 right; left; reflexivity.
        -- intros msg F.
           repeat (destruct F as [F|F]; [discriminate F|]). exact F.
      * destruct body as [j|]; [|discriminate].
        destruct (message j) as [msg|]; [|discriminate].
        intros H. inversion H. simpl. intros [F|[F|[]]]; discriminate F.
  - intros H. inversion H. simpl. intros [F|[]]. discriminate F.
Qed.

Lemma tables_need_live_reading_witness :
  "key"%string <> ""%string
  /\ (exists t, In (st_write_current t) (shown one_row "A" 5 false))
  /\ (In (st_write_status status_normal) (shown one_row "A" 5 false)
      \/ In (st_write_status status_anomalous) (shown one_row "A" 5 false))
  /\ (forall msg, ~ In (st_error msg) (shown one_row "A" 5 false)).
Proof.
  apply (@tables_need_live_reading (Some one_row) (fun _ => "A"%string) "key"
           five_degrees (shown one_row "A" 5 false)
           (filter (same_city "A") (smoothed one_row))).
  - reflexivity.
  - unfold shown, page_title, display_results. simpl. do 3 right. left.
    reflexivity.
Defined.

(** ** Smoothing a store without missing raw temperatures *)

Lemma dropna_complete (l : DataFrame) :
  (forall r, In r l -> temperature r <> nan) ->
  List.length (dropna (temperatures l)) = List.length l.
Proof.
  induction l as [|r l IH]; intros H; [reflexivity|].
  unfold temperatures in *. cbn [map dropna].
  destruct (temperature r) as [x|] eqn:E.
  - simpl. f_equal. apply IH. intros r' Hr'. apply H. simpl. auto.
  - exfalso. apply (H r); simpl; auto.
Qed.

Lemma window_rows_In (data : DataFrame) (W n : nat) (r : Row) :
  In r (firstn W (skipn n data)) -> In r data.
Proof.
  intros H.
  rewrite <- (firstn_skipn n data). apply in_or_app. right.
  rewrite <- (firstn_skipn W (skipn n data)). apply in_or_app. now left.
Qed.

(** X4.  When every record carries a raw temperature, the window is at
    least one row and the raw temperatures are small enough for the running
    sum not to overflow up to row [i], row [i] of the smoothed column is NaN
    if and only if it is one of the first [W - 1] rows. *)
Theorem smoothed_nan_exactly_head (data : DataFrame) (W i : nat) (r : Row) :
  (0 < W)%nat ->
  (forall r', In r' data -> temperature r' <> nan) ->
  rolling_in_range data i ->
  nth_error (smooth_temperature data W) i = Some r ->
  (temperature r = nan <-> (S i < W)%nat).
Proof.
  intros HW Hall _ Hr.
  assert (Hlen : (i < List.length data)%nat).
  { rewrite <- (smooth_temperature_length data W). apply nth_error_Some.
    congruence. }
  destruct (smooth_temperature_nth data W i Hr) as [r0 [_ ->]]. simpl.
  split; [|apply rolling_at_short].
  intros Hnan. destruct (le_lt_dec W (S i)) as [Hle|Hlt]; [|exact Hlt].
  exfalso. unfold rolling_at in Hnan.
  rewrite window_at_rows in Hnan by exact Hle.
  rewrite dropna_complete in Hnan.
  - rewrite window_rows_length in Hnan by assumption.
    rewrite Nat.leb_refl in Hnan. apply Nat.ltb_lt in HW.
    rewrite HW in Hnan. discriminate Hnan.
  - intros r' Hr'. apply Hall. now apply window_rows_In in Hr'.
Qed.

Lemma smoothed_nan_exactly_head_witness :
  temperature (winter 2 "A" (arith_mean [0; 2]%R)) = nan <-> (2 < 2)%nat.
Proof.
  apply (@smoothed_nan_exactly_head two_rows 2 1
           (winter 2 "A" (arith_mean [0; 2]%R))).
  - lia.
  - intros r' [<-|[<-|[]]]; discriminate.
  - exact two_rows_in_range.
  - reflexivity.
Defined.
